(** * datamodel_code_generator.types: the [DataType] type-expression node

    A shallow embedding of [src/datamodel_code_generator/types.py]:
    the [DataType] pydantic model, its [__init__] aggregation fold and
    its [type_hint] rendering property, first as a pure tree, then over
    an explicit object store where the fold's in-place list and set
    mutations are visible. *)

From Stdlib Require Import String Ascii ZArith DecimalString DecimalZ
  DecimalPos.
From stdpp Require Import base option list gmap strings.

Local Open Scope string_scope.

(** ** Collaborators imported by [types.py] *)

(** Modelled from the spec: [datamodel_code_generator.imports] is not
    under [src/]. The spec describes helper symbols as opaque
    identifiers, one for each of the list, mapping, optional and union
    wrappers; a node may also be given any other helper by its caller.
    Python compares them with [==] ([import_ not in self.imports_]),
    which is decidable equality here. *)
Inductive Import : Type :=
  | IMPORT_LIST
  | IMPORT_DICT
  | IMPORT_OPTIONAL
  | IMPORT_UNION
  | IMPORT_OTHER (from_ import_ : string).

#[global] Instance Import_eq_dec : EqDecision Import.
Proof. solve_decision. Defined.

(** Modelled from the spec: [datamodel_code_generator.reference] is not
    under [src/]. [types.py] reads two attributes of a [Reference]:
    [name] and [module_name]. A [Reference] object is always truthy. *)
Record Reference : Type := mkReference {
  name : string;
  ref_module_name : option string;
}.

(** Modelled from the spec: [datamodel_code_generator.format] is not
    under [src/]. [types.py] names the members [PY_36] and [PY_37];
    [PY_38] stands for every later member, all of which take the same
    branch as [PY_37]. *)
Inductive PythonVersion : Type := PY_36 | PY_37 | PY_38.

#[global] Instance PythonVersion_eq_dec : EqDecision PythonVersion.
Proof. solve_decision. Defined.

(** The values of [kwargs] have type [Any]; [type_hint] only formats
    them with [f'{v}'], that is [str(v)]. *)
Inductive PyValue : Type :=
  | PyStr (s : string)
  | PyInt (z : Z)
  | PyBool (b : bool)
  | PyNone.

Definition py_str (v : PyValue) : string :=
  match v with
  | PyStr s => s
  | PyInt z => NilZero.string_of_int (Z.to_int z)
  | PyBool true => "True"
  | PyBool false => "False"
  | PyNone => "None"
  end.

(** [sep.join(parts)] *)
Definition join (sep : string) (parts : list string) : string :=
  String.concat sep parts.

(** ** The [DataType] model *)

#[warnings="-register-all"]
Inductive DataType : Type := mkDataType {
  type : option string;
  reference : option Reference;
  data_types : list DataType;
  is_func : bool;
  kwargs : option (list (string * PyValue));
  imports_ : list Import;
  python_version : PythonVersion;
  unresolved_types : gset string;
  ref : bool;
  is_optional : bool;
  is_dict : bool;
  is_list : bool;
}.

(** The class defaults of [DataType]: the field values of
    [DataType()] before [__init__]'s fold has run. *)
Definition DataType_defaults : DataType :=
  {| type := None; reference := None; data_types := [];
     is_func := false; kwargs := None; imports_ := [];
     python_version := PY_37; unresolved_types := ∅;
     ref := false; is_optional := false; is_dict := false;
     is_list := false |}.

(** [class DataTypePy36(DataType)]: only the default dialect differs. *)
Definition DataTypePy36_defaults : DataType :=
  {| type := None; reference := None; data_types := [];
     is_func := false; kwargs := None; imports_ := [];
     python_version := PY_36; unresolved_types := ∅;
     ref := false; is_optional := false; is_dict := false;
     is_list := false |}.

(** Python truthiness of the fields that [types.py] tests. *)
Definition str_truthy (o : option string) : bool :=
  match o with
  | Some s => negb (String.eqb s "")
  | None => false
  end.

Definition obj_truthy {A} (o : option A) : bool :=
  match o with Some _ => true | None => false end.

Definition dict_truthy {A} (o : option (list A)) : bool :=
  match o with
  | Some (_ :: _) => true
  | _ => false
  end.

(** [self.type] where the source has already tested it truthy. *)
Definition type_str (o : option string) : string := default "" o.

(** *** [DataType.__init__] *)

(** [if field and import_ not in self.imports_:
       self.imports_.append(import_)] *)
Definition add_flag_import (acc : list Import) (fi : bool * Import)
  : list Import :=
  if fi.1 && negb (bool_decide (fi.2 ∈ acc)) then (acc ++ [fi.2])%list else acc.

(** The tuple of (condition, helper) pairs walked by the first loop. *)
Definition flag_imports (d : DataType) : list (bool * Import) :=
  [ (is_list d, IMPORT_LIST);
    (is_dict d, IMPORT_DICT);
    (is_optional d, IMPORT_OPTIONAL);
    (bool_decide (1 < length (data_types d)), IMPORT_UNION) ].

(** One round of the second loop:
    [self.imports_.extend(data_type.imports_)]
    [self.unresolved_types.update(data_type.unresolved_types)] *)
Definition merge_child (acc : list Import * gset string) (c : DataType)
  : list Import * gset string :=
  ((acc.1 ++ imports_ c)%list, acc.2 ∪ unresolved_types c).

(** [__init__], called with keyword values: [values] holds the validated field values
    (defaults filled in); the result is the object after the fold. *)
Definition init (values : DataType) : DataType :=
  let unresolved0 :=
    if str_truthy (type values)
       && (obj_truthy (reference values) || ref values)
    then unresolved_types values ∪ {[ type_str (type values) ]}
    else unresolved_types values in
  let imports0 :=
    foldl add_flag_import (imports_ values) (flag_imports values) in
  let merged := foldl merge_child (imports0, unresolved0) (data_types values) in
  {| type := type values; reference := reference values;
     data_types := data_types values;
     is_func := is_func values; kwargs := kwargs values;
     imports_ := merged.1;
     python_version := python_version values;
     unresolved_types := merged.2;
     ref := ref values; is_optional := is_optional values;
     is_dict := is_dict values; is_list := is_list values |}.

(** The two factory classmethods. *)
Definition from_model_name (defaults : DataType) (model_name : string)
    (is_list_ : bool) : DataType :=
  init {| type := Some model_name; reference := reference defaults;
          data_types := data_types defaults;
          is_func := is_func defaults; kwargs := kwargs defaults;
          imports_ := imports_ defaults;
          python_version := python_version defaults;
          unresolved_types := unresolved_types defaults;
          ref := true; is_optional := is_optional defaults;
          is_dict := is_dict defaults; is_list := is_list_ |}.

Definition from_reference (defaults : DataType) (r : Reference)
    (is_list_ : bool) : DataType :=
  init {| type := Some (name r); reference := Some r;
          data_types := data_types defaults;
          is_func := is_func defaults; kwargs := kwargs defaults;
          imports_ := imports_ defaults;
          python_version := python_version defaults;
          unresolved_types := unresolved_types defaults;
          ref := ref defaults; is_optional := is_optional defaults;
          is_dict := is_dict defaults; is_list := is_list_ |}.

(** [module_name] property. *)
Definition module_name (d : DataType) : option string :=
  match reference d with
  | Some r => ref_module_name r
  | None => None
  end.

(** *** [DataType.type_hint] *)

(** [', '.join(f'{k}={v}' for k, v in self.kwargs.items())] *)
Definition render_kwargs (kw : list (string * PyValue)) : string :=
  join ", " (map (fun kv => kv.1 ++ "=" ++ py_str kv.2) kw).

Fixpoint type_hint (d : DataType) : string :=
  let type_ :=
    if str_truthy (type d) then
      if (obj_truthy (reference d) || ref d)
         && bool_decide (python_version d = PY_36)
      then "'" ++ type_str (type d) ++ "'"
      else type_str (type d)
    else
      let types := map type_hint (data_types d) in
      if bool_decide (1 < length types) then
        "Union[" ++ join ", " types ++ "]"
      else
        match types with
        | [t] => t
        | _ => ""
        end in
  let type_ :=
    if is_list d then
      (if negb (String.eqb type_ "") then "List[" ++ type_ ++ "]" else "List")
    else type_ in
  let type_ :=
    if is_dict d then
      (if negb (String.eqb type_ "") then "Dict[str, " ++ type_ ++ "]"
       else "Dict")
    else type_ in
  let type_ :=
    if is_optional d then "Optional[" ++ type_ ++ "]" else type_ in
  if is_func d then
    if dict_truthy (kwargs d) then
      type_ ++ "(" ++ render_kwargs (default [] (kwargs d)) ++ ")"
    else type_ ++ "()"
  else type_.

(** [all_data_types]: the subtree in children-first, self-last order. *)
Fixpoint all_data_types (d : DataType) : list DataType :=
  (flat_map all_data_types (data_types d) ++ [d])%list.

(** ** [DataType] objects in a store

    [__init__] updates [self.imports_] and [self.unresolved_types] in
    place. To see which objects those updates reach, objects, lists
    and sets live in a store and are named by their address. *)

Abbreviation loc := nat.

(** A [DataType] object: its attributes. [imports_] and
    [unresolved_types] are bound to a list object and a set object. *)
Record Obj : Type := mkObj {
  o_type : option string;
  o_reference : option Reference;
  o_data_types : list loc;
  o_is_func : bool;
  o_kwargs : option (list (string * PyValue));
  o_imports_ : loc;
  o_python_version : PythonVersion;
  o_unresolved_types : loc;
  o_ref : bool;
  o_is_optional : bool;
  o_is_dict : bool;
  o_is_list : bool;
}.

Inductive cell : Type :=
  | CList (xs : list Import)
  | CSet (s : gset string)
  | CObj (o : Obj).

Abbreviation heap := (list cell).

(** The keyword values of a constructor call: the children are
    existing objects, the two collections are given by their contents. *)
Record Values : Type := mkValues {
  v_type : option string;
  v_reference : option Reference;
  v_data_types : list loc;
  v_is_func : bool;
  v_kwargs : option (list (string * PyValue));
  v_imports_ : list Import;
  v_python_version : PythonVersion;
  v_unresolved_types : gset string;
  v_ref : bool;
  v_is_optional : bool;
  v_is_dict : bool;
  v_is_list : bool;
}.

(** Store-passing computations that may fail (a dangling address, or
    a cell of the wrong kind). *)
Definition M (A : Type) : Type := heap → option (A * heap).

Definition ret {A} (a : A) : M A := λ h, Some (a, h).

Definition fail {A} : M A := λ _, None.

Definition bind {A B} (m : M A) (k : A → M B) : M B :=
  λ h, match m h with
       | Some (a, h') => k a h'
       | None => None
       end.

Notation "'let*' x ':=' m 'in' k" := (bind m (λ x, k))
  (at level 10, x name, m at level 100, k at level 200).
Notation "m ';;' k" := (bind m (λ _, k))
  (at level 100, k at level 200, right associativity).

Definition alloc (c : cell) : M loc :=
  λ h, Some (length h, (h ++ [c])%list).

Definition get (l : loc) : M cell :=
  λ h, match h !! l with
       | Some c => Some (c, h)
       | None => None
       end.

Definition put (l : loc) (c : cell) : M unit :=
  λ h, if decide (l < length h) then Some ((), <[l := c]> h) else None.

Definition get_list (l : loc) : M (list Import) :=
  let* c := get l in
  match c with CList xs => ret xs | _ => fail end.

Definition get_set (l : loc) : M (gset string) :=
  let* c := get l in
  match c with CSet s => ret s | _ => fail end.

Definition get_obj (l : loc) : M Obj :=
  let* c := get l in
  match c with CObj o => ret o | _ => fail end.

(** [l.append(x)], [l.extend(ys)], [s.add(x)], [s.update(t)] *)
Definition list_append (l : loc) (x : Import) : M unit :=
  let* xs := get_list l in put l (CList (xs ++ [x])%list).

Definition list_extend (l : loc) (ys : list Import) : M unit :=
  let* xs := get_list l in put l (CList (xs ++ ys)%list).

Definition set_add (l : loc) (x : string) : M unit :=
  let* s := get_set l in put l (CSet (s ∪ {[ x ]})).

Definition set_update (l : loc) (t : gset string) : M unit :=
  let* s := get_set l in put l (CSet (s ∪ t)).

(** [for x in xs: body(x)] *)
Fixpoint for_each {A} (xs : list A) (body : A → M unit) : M unit :=
  match xs with
  | [] => ret ()
  | x :: xs' => body x ;; for_each xs' body
  end.

(** [super().__init__] with the keyword values: pydantic validates the values and
    binds every attribute of the new object; a list or set value is
    rebuilt by validation (and a default is copied), so [imports_]
    and [unresolved_types] are bound to new collection objects. *)
Definition new_obj (v : Values) (li ls : loc) : Obj :=
  {| o_type := v_type v; o_reference := v_reference v;
     o_data_types := v_data_types v;
     o_is_func := v_is_func v; o_kwargs := v_kwargs v;
     o_imports_ := li;
     o_python_version := v_python_version v;
     o_unresolved_types := ls;
     o_ref := v_ref v; o_is_optional := v_is_optional v;
     o_is_dict := v_is_dict v; o_is_list := v_is_list v |}.

Definition super_init (v : Values) : M loc :=
  let* li := alloc (CList (v_imports_ v)) in
  let* ls := alloc (CSet (v_unresolved_types v)) in
  alloc (CObj (new_obj v li ls)).

(** [DataType.__init__] on the store; returns the new object. *)
Definition init_obj (v : Values) : M loc :=
  let* self := super_init v in
  let* o := get_obj self in
  (if str_truthy (o_type o) && (obj_truthy (o_reference o) || o_ref o)
   then set_add (o_unresolved_types o) (type_str (o_type o))
   else ret ()) ;;
  for_each
    [ (o_is_list o, IMPORT_LIST);
      (o_is_dict o, IMPORT_DICT);
      (o_is_optional o, IMPORT_OPTIONAL);
      (bool_decide (1 < length (o_data_types o)), IMPORT_UNION) ]
    (λ fi,
       let* cur := get_list (o_imports_ o) in
       if fi.1 && negb (bool_decide (fi.2 ∈ cur))
       then list_append (o_imports_ o) fi.2
       else ret ()) ;;
  for_each (o_data_types o)
    (λ c,
       let* data_type := get_obj c in
       let* ci := get_list (o_imports_ data_type) in
       list_extend (o_imports_ o) ci ;;
       let* cu := get_set (o_unresolved_types data_type) in
       set_update (o_unresolved_types o) cu) ;;
  ret self.

(** The tree an object stands for: its attributes, with the contents
    of its two collections and the trees of its children. [fuel]
    bounds the depth read. *)
Fixpoint read_tree (fuel : nat) (h : heap) (l : loc) : option DataType :=
  match fuel with
  | 0 => None
  | S fuel' =>
    match h !! l with
    | Some (CObj o) =>
      match h !! o_imports_ o, h !! o_unresolved_types o,
            mapM (read_tree fuel' h) (o_data_types o) with
      | Some (CList xs), Some (CSet s), Some cs =>
        Some {| type := o_type o; reference := o_reference o;
                data_types := cs;
                is_func := o_is_func o; kwargs := o_kwargs o;
                imports_ := xs;
                python_version := o_python_version o;
                unresolved_types := s;
                ref := o_ref o; is_optional := o_is_optional o;
                is_dict := o_is_dict o; is_list := o_is_list o |}
      | _, _, _ => None
      end
    | _ => None
    end
  end.

(** The values of a call, with the children given as trees. *)
Definition values_tree (v : Values) (cs : list DataType) : DataType :=
  {| type := v_type v; reference := v_reference v; data_types := cs;
     is_func := v_is_func v; kwargs := v_kwargs v;
     imports_ := v_imports_ v;
     python_version := v_python_version v;
     unresolved_types := v_unresolved_types v;
     ref := v_ref v; is_optional := v_is_optional v;
     is_dict := v_is_dict v; is_list := v_is_list v |}.

(** The two collections a child object holds, as [__init__] reads
    them. *)
Definition child_cells (h : heap) (c : loc)
  : option (list Import * gset string) :=
  match h !! c with
  | Some (CObj o) =>
    match h !! o_imports_ o, h !! o_unresolved_types o with
    | Some (CList xs), Some (CSet s) => Some (xs, s)
    | _, _ => None
    end
  | _ => None
  end.

(** The store [h] followed by the three cells of an object built on
    top of it: its list, its set, and the object itself. *)
Definition with_self (h : heap) (v : Values) (xs : list Import)
    (s : gset string) : heap :=
  (h ++ [CList xs; CSet s;
         CObj (new_obj v (length h) (length h + 1))])%list.

(** ** The parts of [type_hint]

    [type_hint] computes an inner form, wraps it, and finally turns it
    into a call. The parts are named here so that statements can refer
    to them; [type_hint_unfold] shows that they compose to
    [type_hint]. *)

Definition named_form (d : DataType) : string :=
  if (obj_truthy (reference d) || ref d)
     && bool_decide (python_version d = PY_36)
  then "'" ++ type_str (type d) ++ "'"
  else type_str (type d).

Definition union_form (types : list string) : string :=
  if bool_decide (1 < length types) then
    "Union[" ++ join ", " types ++ "]"
  else
    match types with
    | [t] => t
    | _ => ""
    end.

Definition inner_form (d : DataType) : string :=
  if str_truthy (type d) then named_form d
  else union_form (map type_hint (data_types d)).

Definition list_wrap (flag : bool) (t : string) : string :=
  if flag then
    (if negb (String.eqb t "") then "List[" ++ t ++ "]" else "List")
  else t.

Definition dict_wrap (flag : bool) (t : string) : string :=
  if flag then
    (if negb (String.eqb t "") then "Dict[str, " ++ t ++ "]" else "Dict")
  else t.

Definition optional_wrap (flag : bool) (t : string) : string :=
  if flag then "Optional[" ++ t ++ "]" else t.

Definition wrappers (d : DataType) (t : string) : string :=
  optional_wrap (is_optional d)
    (dict_wrap (is_dict d) (list_wrap (is_list d) t)).

Definition call_form (d : DataType) (t : string) : string :=
  if is_func d then
    if dict_truthy (kwargs d) then
      t ++ "(" ++ render_kwargs (default [] (kwargs d)) ++ ")"
    else t ++ "()"
  else t.

(** A node without wrapper flags that is not a call. *)
Definition plain (d : DataType) : Prop :=
  is_list d = false ∧ is_dict d = false ∧ is_optional d = false
  ∧ is_func d = false.

(** The same field values with other children. *)
Definition with_data_types (d : DataType) (cs : list DataType) : DataType :=
  {| type := type d; reference := reference d; data_types := cs;
     is_func := is_func d; kwargs := kwargs d; imports_ := imports_ d;
     python_version := python_version d;
     unresolved_types := unresolved_types d;
     ref := ref d; is_optional := is_optional d;
     is_dict := is_dict d; is_list := is_list d |}.

(** ** Example nodes and stores *)

(** The keyword values of [DataType(type=n)]: only the name is set. *)
Definition only_name (n : string) : DataType :=
  {| type := Some n; reference := None; data_types := [];
     is_func := false; kwargs := None; imports_ := [];
     python_version := PY_37; unresolved_types := ∅;
     ref := false; is_optional := false; is_dict := false;
     is_list := false |}.

(** [DataType(type=n, is_list=l, is_dict=m, is_optional=o)] *)
Definition flagged_name (n : string) (l m o : bool) : DataType :=
  {| type := Some n; reference := None; data_types := [];
     is_func := false; kwargs := None; imports_ := [];
     python_version := PY_37; unresolved_types := ∅;
     ref := false; is_optional := o; is_dict := m; is_list := l |}.

(** [DataType(data_types=cs, is_list=l, is_dict=m, is_optional=o)] *)
Definition composite (cs : list DataType) (l m o : bool) : DataType :=
  {| type := None; reference := None; data_types := cs;
     is_func := false; kwargs := None; imports_ := [];
     python_version := PY_37; unresolved_types := ∅;
     ref := false; is_optional := o; is_dict := m; is_list := l |}.

(** [DataType(type=n, is_func=True, kwargs=kw)] *)
Definition func_call (n : string)
    (kw : option (list (string * PyValue))) : DataType :=
  {| type := Some n; reference := None; data_types := [];
     is_func := true; kwargs := kw; imports_ := [];
     python_version := PY_37; unresolved_types := ∅;
     ref := false; is_optional := false; is_dict := false;
     is_list := false |}.

(** [DataType(type=n, ref=True, python_version=pv)] *)
Definition symbolic_name (n : string) (pv : PythonVersion) : DataType :=
  {| type := Some n; reference := None; data_types := [];
     is_func := false; kwargs := None; imports_ := [];
     python_version := pv; unresolved_types := ∅;
     ref := true; is_optional := false; is_dict := false;
     is_list := false |}.

(** [DataType(is_list=True,
              data_types=[DataType(type='int', is_list=True)])] *)
Definition list_of_list : DataType :=
  init (composite [init (flagged_name "int" true false false)]
          true false false).

(** A union of two unions, each of two scalars. *)
Definition union_of_unions : DataType :=
  let u := init (composite [init (only_name "int"); init (only_name "str")]
                   false false false) in
  init (composite [u; u] false false false).

(** The store after [DataType.from_model_name('Pet', is_list=True)]
    has run on the empty store. *)
Definition pet_store : heap :=
  [ CList [IMPORT_LIST];
    CSet {[ "Pet" ]};
    CObj {| o_type := Some "Pet"; o_reference := None;
            o_data_types := [];
            o_is_func := false; o_kwargs := None; o_imports_ := 0;
            o_python_version := PY_37; o_unresolved_types := 1;
            o_ref := true; o_is_optional := false; o_is_dict := false;
            o_is_list := true |} ].

(** The values of [DataType(data_types=[pet], is_optional=True)],
    where [pet] is the object at address 2 of [pet_store]. *)
Definition optional_pet_values : Values :=
  {| v_type := None; v_reference := None; v_data_types := [2];
     v_is_func := false; v_kwargs := None; v_imports_ := [];
     v_python_version := PY_37; v_unresolved_types := ∅;
     v_ref := false; v_is_optional := true; v_is_dict := false;
     v_is_list := false |}.

(** The tree that the object at address 2 of [pet_store] stands for. *)
Definition pet_tree : DataType :=
  {| type := Some "Pet"; reference := None; data_types := [];
     is_func := false; kwargs := None; imports_ := [IMPORT_LIST];
     python_version := PY_37; unresolved_types := {[ "Pet" ]};
     ref := true; is_optional := false; is_dict := false;
     is_list := true |}.

(** ** Words of the specification, for comparison with the code *)

(** The argument list of a call as the specification words it:
    [key=value] pairs in the order given, each pair after the first
    preceded by a comma and a space. The values are given by their
    text. *)
Fixpoint key_value_pairs (args : list (string * string)) : string :=
  match args with
  | [] => ""
  | [(k, v)] => k ++ "=" ++ v
  | (k, v) :: rest => (k ++ "=" ++ v) ++ ", " ++ key_value_pairs rest
  end.

(** [n] is [d] or is reached from [d] through [data_types], child by
    child. *)
Inductive descendant : DataType → DataType → Prop :=
  | descendant_self (d : DataType) : descendant d d
  | descendant_child (n c d : DataType) :
      c ∈ data_types d → descendant n c → descendant n d.

(** ** [DataTypeManager] *)

(** A class is given by the defaults of its fields: [DataType] by
    [DataType_defaults], [DataTypePy36] by [DataTypePy36_defaults]. *)
Record DataTypeManager : Type := mkDataTypeManager {
  manager_python_version : PythonVersion;
  data_type : DataType;
}.

(** [DataTypeManager.__init__(python_version)] *)
Definition DataTypeManager_init (pv : PythonVersion) : DataTypeManager :=
  {| manager_python_version := pv;
     data_type := if bool_decide (pv = PY_36) then DataTypePy36_defaults
                  else DataType_defaults |}.

(** ** Objects that came out of the constructor *)

(** A node all of whose descendants, and the node itself, are results
    of [__init__]: the only way the program makes a [DataType]. *)
#[warnings="-register-all"]
Inductive constructed : DataType → Prop :=
  | constructed_init (values : DataType) :
      Forall constructed (data_types values) →
      constructed (init values).

(** ** Basic facts *)

Section rendering.

Lemma type_hint_unfold (d : DataType) :
  type_hint d = call_form d (wrappers d (inner_form d)).
Proof. destruct d; reflexivity. Qed.

Lemma type_hint_init (v : DataType) : type_hint (init v) = type_hint v.
Proof. destruct v; reflexivity. Qed.

Lemma inner_form_with_data_types (d : DataType) (cs : list DataType) :
  str_truthy (type d) = true →
  inner_form (with_data_types d cs) = inner_form d.
Proof.
  intros Ht. unfold inner_form. cbn [type with_data_types].
  rewrite Ht. reflexivity.
Qed.

Lemma str_truthy_Some (o : option string) :
  str_truthy o = true ↔ ∃ n, o = Some n ∧ n ≠ "".
Proof.
  destruct o as [n|]; cbn.
  - rewrite negb_true_iff. split.
    + intros He. exists n. split; [done|].
      intros ->. by rewrite String.eqb_refl in He.
    + intros (n' & [= <-] & Hn). by apply String.eqb_neq.
  - split; [done|]. by intros (n & ? & _).
Qed.

Lemma named_form_nonempty (d : DataType) :
  str_truthy (type d) = true → String.eqb (named_form d) "" = false.
Proof.
  intros (n & Hn & Hne)%str_truthy_Some. unfold named_form.
  rewrite Hn. cbn [type_str default].
  destruct (_ && _); [reflexivity|]. by apply String.eqb_neq.
Qed.

Lemma render_kwargs_nil : render_kwargs [] = "".
Proof. reflexivity. Qed.

(** The code's [', '.join] of the formatted pairs spells the same
    text as [key_value_pairs]. *)
Lemma render_kwargs_pairs (kw : list (string * PyValue)) :
  render_kwargs kw
  = key_value_pairs (map (λ kv, (kv.1, py_str kv.2)) kw).
Proof.
  unfold render_kwargs, join.
  induction kw as [|[k v] [|kv kw] IH]; [done|done|].
  cbn [map String.concat key_value_pairs fst snd] in IH |- *.
  by rewrite IH.
Qed.

Lemma call_form_func (d : DataType) (t : string) :
  is_func d = true →
  call_form d t = t ++ "(" ++ render_kwargs (default [] (kwargs d)) ++ ")".
Proof.
  intros Hf. unfold call_form. rewrite Hf.
  destruct (kwargs d) as [[|kv kw]|]; reflexivity.
Qed.

End rendering.

Section aggregation.

Lemma foldl_merge_child (cs : list DataType)
    (acc : list Import * gset string) :
  foldl merge_child acc cs
  = ((acc.1 ++ mjoin (imports_ <$> cs))%list,
     acc.2 ∪ ⋃ (unresolved_types <$> cs)).
Proof.
  revert acc. induction cs as [|c cs IH]; intros [xs s]; cbn.
  - by rewrite app_nil_r, (right_id_L ∅ (∪)).
  - rewrite IH. cbn. by rewrite <- app_assoc, (assoc_L (∪)).
Qed.

Lemma imports_init (v : DataType) :
  imports_ (init v)
  = (foldl add_flag_import (imports_ v) (flag_imports v)
     ++ mjoin (imports_ <$> data_types v))%list.
Proof. unfold init. cbn [imports_]. by rewrite foldl_merge_child. Qed.

Lemma unresolved_types_init (v : DataType) :
  unresolved_types (init v)
  = (if str_truthy (type v) && (obj_truthy (reference v) || ref v)
     then unresolved_types v ∪ {[ type_str (type v) ]}
     else unresolved_types v)
    ∪ ⋃ (unresolved_types <$> data_types v).
Proof. unfold init. cbn [unresolved_types]. by rewrite foldl_merge_child. Qed.

Lemma child_imports_in_init (v c : DataType) (x : Import) :
  c ∈ data_types v → x ∈ imports_ c → x ∈ imports_ (init v).
Proof.
  intros Hc Hx. rewrite imports_init, elem_of_app. right.
  apply list_elem_of_join. exists (imports_ c). split; [done|].
  by apply list_elem_of_fmap_2.
Qed.

Lemma child_unresolved_in_init (v c : DataType) :
  c ∈ data_types v → unresolved_types c ⊆ unresolved_types (init v).
Proof.
  intros Hc x Hx. rewrite unresolved_types_init.
  apply elem_of_union. right. apply elem_of_union_list.
  exists (unresolved_types c). split; [|done].
  by apply list_elem_of_fmap_2.
Qed.

End aggregation.

(** ** The store operations on a newly built object *)

Section store.

Implicit Types (h : heap) (v : Values) (xs ys : list Import)
  (s t : gset string) (c l : loc).

Lemma with_self_lookup_old h v xs s l (x : cell) :
  h !! l = Some x → with_self h v xs s !! l = Some x.
Proof. intros Hl. unfold with_self. by apply lookup_app_l_Some. Qed.

Lemma with_self_lookup_list h v xs s :
  with_self h v xs s !! length h = Some (CList xs).
Proof. unfold with_self. by apply list_lookup_middle. Qed.

Lemma with_self_lookup_set h v xs s :
  with_self h v xs s !! (length h + 1) = Some (CSet s).
Proof.
  unfold with_self. rewrite lookup_app_r by lia.
  by replace (length h + 1 - length h) with 1 by lia.
Qed.

Lemma with_self_lookup_obj h v xs s :
  with_self h v xs s !! (length h + 2)
  = Some (CObj (new_obj v (length h) (length h + 1))).
Proof.
  unfold with_self. rewrite lookup_app_r by lia.
  by replace (length h + 2 - length h) with 2 by lia.
Qed.

Lemma with_self_length h v xs s :
  length (with_self h v xs s) = length h + 3.
Proof. unfold with_self. by rewrite length_app. Qed.

Lemma with_self_insert_list h v xs s ys :
  <[length h := CList ys]> (with_self h v xs s) = with_self h v ys s.
Proof.
  unfold with_self. rewrite insert_app_r_alt by lia.
  by rewrite Nat.sub_diag.
Qed.

Lemma with_self_insert_set h v xs s t :
  <[length h + 1 := CSet t]> (with_self h v xs s) = with_self h v xs t.
Proof.
  unfold with_self. rewrite insert_app_r_alt by lia.
  by replace (length h + 1 - length h) with 1 by lia.
Qed.

Lemma super_init_spec v h :
  super_init v h
  = Some (length h + 2,
          with_self h v (v_imports_ v) (v_unresolved_types v)).
Proof.
  unfold super_init, bind, alloc, with_self.
  rewrite !length_app. cbn [length].
  rewrite <- !app_assoc. cbn [app].
  by replace (length h + 1 + 1) with (length h + 2) by lia.
Qed.

Lemma get_list_self h v xs s :
  get_list (length h) (with_self h v xs s)
  = Some (xs, with_self h v xs s).
Proof.
  unfold get_list, bind, get. by rewrite with_self_lookup_list.
Qed.

Lemma get_set_self h v xs s :
  get_set (length h + 1) (with_self h v xs s)
  = Some (s, with_self h v xs s).
Proof.
  unfold get_set, bind, get. by rewrite with_self_lookup_set.
Qed.

Lemma get_obj_self h v xs s :
  get_obj (length h + 2) (with_self h v xs s)
  = Some (new_obj v (length h) (length h + 1), with_self h v xs s).
Proof.
  unfold get_obj, bind, get. by rewrite with_self_lookup_obj.
Qed.

Lemma put_list_self h v xs s ys :
  put (length h) (CList ys) (with_self h v xs s)
  = Some ((), with_self h v ys s).
Proof.
  unfold put. rewrite with_self_length.
  rewrite decide_True by lia. by rewrite with_self_insert_list.
Qed.

Lemma put_set_self h v xs s t :
  put (length h + 1) (CSet t) (with_self h v xs s)
  = Some ((), with_self h v xs t).
Proof.
  unfold put. rewrite with_self_length.
  rewrite decide_True by lia. by rewrite with_self_insert_set.
Qed.

Lemma list_append_self h v xs s (x : Import) :
  list_append (length h) x (with_self h v xs s)
  = Some ((), with_self h v (xs ++ [x]) s).
Proof.
  unfold list_append, bind. rewrite get_list_self. apply put_list_self.
Qed.

Lemma list_extend_self h v xs s ys :
  list_extend (length h) ys (with_self h v xs s)
  = Some ((), with_self h v (xs ++ ys) s).
Proof.
  unfold list_extend, bind. rewrite get_list_self. apply put_list_self.
Qed.

Lemma set_add_self h v xs s (x : string) :
  set_add (length h + 1) x (with_self h v xs s)
  = Some ((), with_self h v xs (s ∪ {[ x ]})).
Proof.
  unfold set_add, bind. rewrite get_set_self. apply put_set_self.
Qed.

Lemma set_update_self h v xs s t :
  set_update (length h + 1) t (with_self h v xs s)
  = Some ((), with_self h v xs (s ∪ t)).
Proof.
  unfold set_update, bind. rewrite get_set_self. apply put_set_self.
Qed.

(** The first loop of [__init__], from any state of the list. *)
Lemma flags_loop_self h v s (fis : list (bool * Import)) xs :
  for_each fis
    (λ fi,
       let* cur := get_list (length h) in
       if fi.1 && negb (bool_decide (fi.2 ∈ cur))
       then list_append (length h) fi.2
       else ret ())
    (with_self h v xs s)
  = Some ((), with_self h v (foldl add_flag_import xs fis) s).
Proof.
  revert xs. induction fis as [|fi fis IH]; intros xs; [done|].
  cbn [for_each foldl]. unfold bind at 1 2.
  rewrite get_list_self. unfold add_flag_import at 2.
  destruct (fi.1 && negb (bool_decide (fi.2 ∈ xs))).
  - rewrite list_append_self. apply IH.
  - apply IH.
Qed.

Lemma child_cells_Some h c xs s :
  child_cells h c = Some (xs, s) →
  ∃ o, h !! c = Some (CObj o)
       ∧ h !! o_imports_ o = Some (CList xs)
       ∧ h !! o_unresolved_types o = Some (CSet s).
Proof.
  unfold child_cells. intros Hc.
  destruct (h !! c) as [[| |o]|] eqn:Ho; try done.
  destruct (h !! o_imports_ o) as [[xs'| |]|] eqn:Hi; try done.
  destruct (h !! o_unresolved_types o) as [[|s'|]|] eqn:Hu; try done.
  injection Hc as -> ->. by exists o.
Qed.

Lemma bind_Some {A B} (m : M A) (k : A → M B) h (a : A) (h' : heap) :
  m h = Some (a, h') → bind m k h = k a h'.
Proof. intros Hm. unfold bind. by rewrite Hm. Qed.

Lemma get_obj_old h v xs s c (o : Obj) :
  h !! c = Some (CObj o) →
  get_obj c (with_self h v xs s) = Some (o, with_self h v xs s).
Proof.
  intros Ho. unfold get_obj, bind, get.
  by rewrite (with_self_lookup_old _ _ _ _ _ _ Ho).
Qed.

Lemma get_list_old h v xs s l ys :
  h !! l = Some (CList ys) →
  get_list l (with_self h v xs s) = Some (ys, with_self h v xs s).
Proof.
  intros Hl. unfold get_list, bind, get.
  by rewrite (with_self_lookup_old _ _ _ _ _ _ Hl).
Qed.

Lemma get_set_old h v xs s l t :
  h !! l = Some (CSet t) →
  get_set l (with_self h v xs s) = Some (t, with_self h v xs s).
Proof.
  intros Hl. unfold get_set, bind, get.
  by rewrite (with_self_lookup_old _ _ _ _ _ _ Hl).
Qed.

(** One round of the second loop. *)
Lemma child_round_self h v c xs s ys t :
  child_cells h c = Some (ys, t) →
  (let* data_type := get_obj c in
   let* ci := get_list (o_imports_ data_type) in
   list_extend (length h) ci ;;
   let* cu := get_set (o_unresolved_types data_type) in
   set_update (length h + 1) cu)
    (with_self h v xs s)
  = Some ((), with_self h v (xs ++ ys) (s ∪ t)).
Proof.
  intros (o & Ho & Hi & Hu)%child_cells_Some.
  rewrite (bind_Some _ _ _ _ _ (get_obj_old _ v xs s _ _ Ho)).
  rewrite (bind_Some _ _ _ _ _ (get_list_old _ v xs s _ _ Hi)).
  rewrite (bind_Some _ _ _ _ _ (list_extend_self h v xs s ys)).
  rewrite (bind_Some _ _ _ _ _ (get_set_old _ v (xs ++ ys) s _ _ Hu)).
  apply set_update_self.
Qed.

(** The second loop of [__init__]. *)
Lemma children_loop_self h v (cs : list loc)
    (views : list (list Import * gset string)) xs s :
  mapM (child_cells h) cs = Some views →
  for_each cs
    (λ c,
       let* data_type := get_obj c in
       let* ci := get_list (o_imports_ data_type) in
       list_extend (length h) ci ;;
       let* cu := get_set (o_unresolved_types data_type) in
       set_update (length h + 1) cu)
    (with_self h v xs s)
  = Some ((), with_self h v (xs ++ mjoin views.*1) (s ∪ ⋃ views.*2)).
Proof.
  rewrite mapM_Some. intros HF. revert xs s.
  induction HF as [|c [ys t] cs views Hc _ IH]; intros xs s.
  - cbn. by rewrite app_nil_r, (right_id_L ∅ (∪)).
  - cbn [for_each]. unfold bind at 1.
    rewrite (child_round_self _ _ _ _ _ _ _ Hc). rewrite IH. cbn.
    by rewrite <- app_assoc, (assoc_L (∪)).
Qed.

(** [__init__] on the store, in closed form: it never fails when
    its children are objects, it returns the address of the new
    object, and the store it leaves is the old one followed by the
    new object's three cells. *)
Lemma init_obj_spec h v (views : list (list Import * gset string)) :
  mapM (child_cells h) (v_data_types v) = Some views →
  init_obj v h
  = Some (length h + 2,
          with_self h v
            (foldl add_flag_import (v_imports_ v)
               [ (v_is_list v, IMPORT_LIST);
                 (v_is_dict v, IMPORT_DICT);
                 (v_is_optional v, IMPORT_OPTIONAL);
                 (bool_decide (1 < length (v_data_types v)), IMPORT_UNION) ]
             ++ mjoin views.*1)
            ((if str_truthy (v_type v)
                 && (obj_truthy (v_reference v) || v_ref v)
              then v_unresolved_types v ∪ {[ type_str (v_type v) ]}
              else v_unresolved_types v)
             ∪ ⋃ views.*2)).
Proof.
  intros Hviews. unfold init_obj.
  unfold bind at 1. rewrite super_init_spec.
  unfold bind at 1. rewrite get_obj_self.
  cbn [new_obj o_type o_reference o_ref o_unresolved_types o_imports_
       o_data_types o_is_list o_is_dict o_is_optional].
  unfold bind at 1.
  destruct (str_truthy (v_type v) && (obj_truthy (v_reference v) || v_ref v)).
  - rewrite set_add_self. unfold bind at 1. rewrite flags_loop_self.
    unfold bind at 1. by rewrite (children_loop_self _ _ _ _ _ _ Hviews).
  - unfold ret at 1. unfold bind at 1. rewrite flags_loop_self.
    unfold bind at 1. by rewrite (children_loop_self _ _ _ _ _ _ Hviews).
Qed.
End store.

(** ** Reading trees back from the store *)

Section reading.

Implicit Types (h ext : heap) (v : Values) (c l : loc) (t : DataType).

Lemma read_tree_Some fuel h l t :
  read_tree (S fuel) h l = Some t →
  ∃ o cs, h !! l = Some (CObj o)
    ∧ h !! o_imports_ o = Some (CList (imports_ t))
    ∧ h !! o_unresolved_types o = Some (CSet (unresolved_types t))
    ∧ mapM (read_tree fuel h) (o_data_types o) = Some cs
    ∧ t = {| type := o_type o; reference := o_reference o;
             data_types := cs;
             is_func := o_is_func o; kwargs := o_kwargs o;
             imports_ := imports_ t;
             python_version := o_python_version o;
             unresolved_types := unresolved_types t;
             ref := o_ref o; is_optional := o_is_optional o;
             is_dict := o_is_dict o; is_list := o_is_list o |}.
Proof.
  cbn [read_tree]. intros Hr.
  destruct (h !! l) as [[| |o]|] eqn:Ho; try done.
  destruct (h !! o_imports_ o) as [[xs| |]|] eqn:Hi; try done.
  destruct (h !! o_unresolved_types o) as [[|s|]|] eqn:Hu; try done.
  destruct (mapM (read_tree fuel h) (o_data_types o)) as [cs|] eqn:Hcs;
    try done.
  injection Hr as <-. by exists o, cs.
Qed.

(** Reading an object sees only cells that exist: it gives the same
    tree in every extension of the store. *)
Lemma read_tree_ext fuel h ext l t :
  read_tree fuel h l = Some t → read_tree fuel (h ++ ext) l = Some t.
Proof.
  revert l t. induction fuel as [|fuel IH]; intros l t Hr; [done|].
  destruct (read_tree_Some _ _ _ _ Hr) as (o & cs & Ho & Hi & Hu & Hcs & Ht).
  cbn [read_tree].
  rewrite (lookup_app_l_Some _ _ _ _ Ho).
  rewrite (lookup_app_l_Some _ _ _ _ Hi).
  rewrite (lookup_app_l_Some _ _ _ _ Hu).
  assert (mapM (read_tree fuel (h ++ ext)) (o_data_types o) = Some cs)
    as ->.
  { apply mapM_Some. apply mapM_Some in Hcs.
    eapply Forall2_impl; [exact Hcs|]. intros c t'. apply IH. }
  by rewrite Ht.
Qed.

Lemma read_tree_child_cells fuel h l t :
  read_tree fuel h l = Some t →
  child_cells h l = Some (imports_ t, unresolved_types t).
Proof.
  destruct fuel as [|fuel]; [done|].
  intros (o & cs & Ho & Hi & Hu & _)%read_tree_Some.
  unfold child_cells. by rewrite Ho, Hi, Hu.
Qed.

Lemma read_trees_child_cells fuel h (cs : list loc) (ts : list DataType) :
  mapM (read_tree fuel h) cs = Some ts →
  mapM (child_cells h) cs
  = Some ((λ t, (imports_ t, unresolved_types t)) <$> ts).
Proof.
  rewrite !mapM_Some. intros HF.
  induction HF as [|c t cs ts Hc _ IH]; cbn; constructor; [|done].
  by apply (read_tree_child_cells fuel).
Qed.

(** The store-level [__init__] builds the object that the tree-level
    [init] describes. *)
Lemma init_obj_refines_init fuel h v (ts : list DataType) :
  mapM (read_tree fuel h) (v_data_types v) = Some ts →
  ∃ h', init_obj v h = Some (length h + 2, h')
    ∧ read_tree (S fuel) h' (length h + 2)
      = Some (init (values_tree v ts)).
Proof.
  intros Hts. eexists. split.
  { apply init_obj_spec. by apply (read_trees_child_cells fuel). }
  cbn [read_tree]. rewrite with_self_lookup_obj.
  cbn [new_obj o_imports_ o_unresolved_types o_data_types].
  rewrite with_self_lookup_list, with_self_lookup_set.
  assert (∀ xs s, mapM (read_tree fuel (with_self h v xs s))
                    (v_data_types v) = Some ts) as Hts'.
  { intros xs s. apply mapM_Some. apply mapM_Some in Hts.
    eapply Forall2_impl; [exact Hts|]. intros c t. apply read_tree_ext. }
  rewrite Hts'. f_equal. unfold init.
  rewrite foldl_merge_child. cbn.
  assert (length (v_data_types v) = length ts) as ->.
  { apply mapM_Some in Hts. by eapply Forall2_length. }
  rewrite <- !list_fmap_compose. reflexivity.
Qed.

End reading.

(** ** Properties of construction *)

Section construction.

(** The store after [from_model_name('Pet', is_list=True)] on the
    empty store is [pet_store], and its object reads back as
    [pet_tree], which is what [from_model_name] builds. *)
Example pet_store_built :
  init_obj {| v_type := Some "Pet"; v_reference := None;
              v_data_types := [];
              v_is_func := false; v_kwargs := None; v_imports_ := [];
              v_python_version := PY_37; v_unresolved_types := ∅;
              v_ref := true; v_is_optional := false;
              v_is_dict := false; v_is_list := true |} []
  = Some (2, pet_store).
Proof.
  rewrite (init_obj_spec [] _ []) by done.
  unfold with_self, pet_store. cbn.
  by rewrite (right_id_L ∅ (∪)), (left_id_L ∅ (∪)).
Qed.

Example pet_tree_read : read_tree 1 pet_store 2 = Some pet_tree.
Proof. reflexivity. Qed.

(** C1, evaluated on the code: [__init__] appends a child's
    [imports_] with [extend], without the membership test it applies
    to its own four helpers. A list node over a list child therefore
    holds the list helper twice, and a union of two unions holds the
    union helper three times: [imports_] is not duplicate-free. *)
Theorem C1_child_imports_are_not_deduplicated :
  imports_ list_of_list = [IMPORT_LIST; IMPORT_LIST]
  ∧ ¬ NoDup (imports_ list_of_list)
  ∧ imports_ union_of_unions = [IMPORT_UNION; IMPORT_UNION; IMPORT_UNION]
  ∧ ¬ NoDup (imports_ union_of_unions).
Proof.
  assert (imports_ list_of_list = [IMPORT_LIST; IMPORT_LIST]) as H1
    by reflexivity.
  assert (imports_ union_of_unions
          = [IMPORT_UNION; IMPORT_UNION; IMPORT_UNION]) as H2
    by reflexivity.
  rewrite H1, H2. repeat split.
  - intros Hnd. apply NoDup_cons in Hnd as [Hin _].
    apply Hin. constructor.
  - intros Hnd. apply NoDup_cons in Hnd as [Hin _].
    apply Hin. constructor.
Qed.

(** C2, refuted as stated: [DataType(type='int')] does not record
    ['int'] in [unresolved_types]. *)
Lemma C2_only_name_is_not_recorded :
  type (init (only_name "int")) = Some "int"
  ∧ reference (init (only_name "int")) = None
  ∧ ref (init (only_name "int")) = false
  ∧ "int" ∉ unresolved_types (init (only_name "int")).
Proof.
  repeat split.
  assert (unresolved_types (init (only_name "int")) = ∅) as ->
    by reflexivity.
  apply not_elem_of_empty.
Qed.

(** C2, amended: a node built directly with only a name is a leaf
    with that name whose [unresolved_types] is empty, so the name is
    not recorded. The name is recorded by the two factory
    constructors, which set [ref] or [reference], whenever it is not
    the empty string. *)
Theorem C2_name_recorded_only_with_reference (n : string) :
  type (init (only_name n)) = Some n
  ∧ data_types (init (only_name n)) = []
  ∧ unresolved_types (init (only_name n)) = ∅
  ∧ (∀ l, unresolved_types (from_model_name DataType_defaults n l)
          = if String.eqb n "" then ∅ else {[ n ]})
  ∧ (∀ m l, unresolved_types
              (from_reference DataType_defaults (mkReference n m) l)
            = if String.eqb n "" then ∅ else {[ n ]}).
Proof.
  split; [reflexivity|]. split; [reflexivity|]. split.
  - rewrite unresolved_types_init. cbn [only_name type reference ref
      data_types unresolved_types obj_truthy orb].
    rewrite andb_false_r. cbn. by rewrite (left_id_L ∅ (∪)).
  - split; intros; unfold from_model_name, from_reference;
      rewrite unresolved_types_init; cbn; rewrite ?andb_true_r;
      destruct (String.eqb n ""); cbn;
      by rewrite ?(left_id_L ∅ (∪)), ?(right_id_L ∅ (∪)).
Qed.

End construction.

(** ** Properties of rendering *)

Section render_claims.

Implicit Types (d c : DataType) (n : string).

(** C3, evaluated on the code: with an empty inner form the list
    wrapper renders the bare [List] and the mapping wrapper the bare
    [Dict], because their lines have an alternative for the empty
    case; the optional line has none, so [DataType(is_optional=True)]
    renders the brackets around nothing, [Optional[]], and not the
    bare helper name. *)
Theorem C3_optional_keeps_its_brackets :
  inner_form (init (composite [] false false true)) = ""
  ∧ is_optional (init (composite [] false false true)) = true
  ∧ type_hint (init (composite [] false false true)) = "Optional[]"
  ∧ type_hint (init (composite [] false false true)) ≠ "Optional"
  ∧ type_hint (init (composite [] true false false)) = "List"
  ∧ type_hint (init (composite [] false true false)) = "Dict".
Proof. repeat split. discriminate. Qed.

(** C4: a node with a (non-empty) name renders that name as its
    inner form: between single quotes when the node has a reference
    or is flagged [ref] and the dialect is [PY_36]; bare under any
    other dialect; bare under either dialect when the node has
    neither reference nor flag. The rendering is the wrappers and
    call form applied to that inner form, so a node without wrapper
    flags that is not a call renders exactly the inner form. *)
Theorem C4_name_quoted_only_for_references_under_PY_36 d n :
  type d = Some n → n ≠ "" →
  ((is_Some (reference d) ∨ ref d = true) →
   python_version d = PY_36 → inner_form d = "'" ++ n ++ "'")
  ∧ (python_version d ≠ PY_36 → inner_form d = n)
  ∧ (reference d = None → ref d = false → inner_form d = n)
  ∧ type_hint d = call_form d (wrappers d (inner_form d))
  ∧ (plain d → type_hint d = inner_form d).
Proof.
  intros Hn Hne.
  assert (str_truthy (type d) = true) as Ht
    by (apply str_truthy_Some; eauto).
  unfold inner_form, named_form. rewrite Ht, Hn. cbn [type_str default].
  split; [|split; [|split; [|split]]].
  - intros Hr ->. rewrite bool_decide_eq_true_2 by done.
    destruct Hr as [[r ->]| ->]; cbn; [done|]. by rewrite orb_true_r.
  - intros Hpv. rewrite bool_decide_eq_false_2 by done.
    by rewrite andb_false_r.
  - by intros -> ->.
  - rewrite type_hint_unfold. unfold inner_form, named_form.
    by rewrite Ht, Hn.
  - intros (Hl & Hd & Ho & Hf). rewrite type_hint_unfold.
    unfold call_form, wrappers, inner_form, named_form.
    by rewrite Hl, Hd, Ho, Hf, Ht, Hn.
Qed.

Lemma C4_name_quoted_only_for_references_under_PY_36_witness :
  type (init (symbolic_name "Pet" PY_36)) = Some "Pet"
  ∧ "Pet" ≠ ""
  ∧ type_hint (init (symbolic_name "Pet" PY_36)) = "'Pet'"
  ∧ type_hint (init (symbolic_name "Pet" PY_37)) = "Pet"
  ∧ type_hint (init (flagged_name "int" false false false)) = "int".
Proof.
  split; [reflexivity|]. split; [discriminate|].
  pose proof (C4_name_quoted_only_for_references_under_PY_36
                (init (symbolic_name "Pet" PY_36)) "Pet"
                eq_refl ltac:(discriminate)) as (Hq & _ & _ & _ & Hp).
  pose proof (C4_name_quoted_only_for_references_under_PY_36
                (init (symbolic_name "Pet" PY_37)) "Pet"
                eq_refl ltac:(discriminate)) as (_ & Hb & _ & _ & Hp').
  pose proof (C4_name_quoted_only_for_references_under_PY_36
                (init (flagged_name "int" false false false)) "int"
                eq_refl ltac:(discriminate)) as (_ & _ & Hs & _ & Hp'').
  split; [|split].
  - rewrite Hp by (repeat split). apply Hq; [by right | reflexivity].
  - rewrite Hp' by (repeat split). apply Hb. discriminate.
  - rewrite Hp'' by (repeat split). apply Hs; reflexivity.
Defined.

(** C5: the wrappers nest in one fixed order, list innermost, then
    mapping, then optional outermost. A named node with [is_list]
    and [is_optional] therefore renders the optional wrapper around
    the list wrapper around the name, [Optional[List[int]]] for the
    name [int], and never the reverse nesting. *)
Theorem C5_optional_wraps_list d :
  str_truthy (type d) = true →
  is_list d = true → is_optional d = true →
  type_hint d
  = call_form d
      (optional_wrap (is_optional d)
         (dict_wrap (is_dict d) (list_wrap (is_list d) (inner_form d))))
  ∧ (is_dict d = false → is_func d = false →
     type_hint d = "Optional[" ++ ("List[" ++ inner_form d ++ "]") ++ "]"
     ∧ type_hint d
       ≠ "List[" ++ ("Optional[" ++ inner_form d ++ "]") ++ "]").
Proof.
  intros Ht Hl Ho. split; [apply type_hint_unfold|].
  intros Hd Hf. rewrite type_hint_unfold.
  unfold call_form, wrappers, inner_form.
  rewrite Hf, Ho, Hd, Hl, Ht. cbn [optional_wrap dict_wrap list_wrap].
  rewrite (named_form_nonempty d Ht). cbn [negb].
  split; [reflexivity|]. cbn. discriminate.
Qed.

Lemma C5_optional_wraps_list_witness :
  str_truthy (type (init (flagged_name "int" true false true))) = true
  ∧ is_list (init (flagged_name "int" true false true)) = true
  ∧ is_optional (init (flagged_name "int" true false true)) = true
  ∧ type_hint (init (flagged_name "int" true false true))
    = "Optional[List[int]]"
  ∧ type_hint (init (flagged_name "int" true false true))
    ≠ "List[Optional[int]]".
Proof.
  split; [reflexivity|]. split; [reflexivity|]. split; [reflexivity|].
  apply (C5_optional_wraps_list
           (init (flagged_name "int" true false true))
           eq_refl eq_refl eq_refl); reflexivity.
Defined.



(** C7: a node with [is_func] renders a call. The callee is the
    wrapped inner form computed as for any other node; the argument
    list, between parentheses, is the [kwargs] as [key=value] pairs
    in insertion order, separated by a comma and a space, as
    [key_value_pairs] spells out; absent or empty [kwargs] give the
    empty argument list [()]. A string value is written as it is, an
    integer in decimal (its text parses back to the integer), a
    boolean as [True] or [False], and [None] as [None]. *)
Theorem C7_call_expression d :
  is_func d = true →
  (∀ kw : list (string * PyValue), kwargs d = Some kw →
     type_hint d
     = wrappers d (inner_form d)
       ++ "(" ++ key_value_pairs (map (λ kv, (kv.1, py_str kv.2)) kw)
       ++ ")")
  ∧ (∀ args : list (string * string),
       kwargs d = Some (map (λ kv, (kv.1, PyStr kv.2)) args) →
       type_hint d
       = wrappers d (inner_form d) ++ "(" ++ key_value_pairs args ++ ")")
  ∧ (kwargs d = None ∨ kwargs d = Some [] →
     type_hint d = wrappers d (inner_form d) ++ "()")
  ∧ (∀ s, py_str (PyStr s) = s)
  ∧ (∀ z, option_map Z.of_int (NilZero.int_of_string (py_str (PyInt z)))
          = Some z)
  ∧ py_str (PyBool true) = "True"
  ∧ py_str (PyBool false) = "False"
  ∧ py_str PyNone = "None".
Proof.
  intros Hf.
  assert (∀ kw : list (string * PyValue), kwargs d = Some kw →
            type_hint d
            = wrappers d (inner_form d)
              ++ "(" ++ key_value_pairs (map (λ kv, (kv.1, py_str kv.2)) kw)
              ++ ")") as Hgen.
  { intros kw Hkw. rewrite type_hint_unfold, (call_form_func _ _ Hf), Hkw.
    cbn [default]. by rewrite render_kwargs_pairs. }
  split; [exact Hgen|]. split; [|split; [|split; [|split]]].
  - intros args Hkw. rewrite (Hgen _ Hkw).
    assert (map (λ kv : string * PyValue, (kv.1, py_str kv.2))
              (map (λ kv : string * string, (kv.1, PyStr kv.2)) args)
            = args) as ->; [|done].
    clear. induction args as [|[k v] args IH]; [done|].
    cbn [map fst snd py_str]. by rewrite IH.
  - intros Hkw. rewrite type_hint_unfold, (call_form_func _ _ Hf).
    by destruct Hkw as [-> | ->].
  - done.
  - intros z. cbn [py_str]. rewrite NilZero.isi.
    + cbn [option_map]. by rewrite DecimalZ.of_to.
    + destruct z as [|p|p]; cbn; [done| |done]. intros [= Hp].
      by apply DecimalPos.Unsigned.to_uint_nonnil in Hp.
    + destruct z as [|p|p]; cbn; [done|done|]. intros [= Hp].
      by apply DecimalPos.Unsigned.to_uint_nonnil in Hp.
  - done.
Qed.

Lemma C7_call_expression_witness :
  is_func (init (func_call "Field" (Some [("default", PyStr "1")]))) = true
  ∧ type_hint (init (func_call "Field" (Some [("default", PyStr "1")])))
    = "Field(default=1)"
  ∧ type_hint (init (func_call "Field" (Some []))) = "Field()"
  ∧ type_hint (init (func_call "Field" None)) = "Field()"
  ∧ type_hint
      (init (func_call "Field"
               (Some [ ("default", PyStr "1"); ("ge", PyInt (-12));
                       ("alias", PyStr "x"); ("required", PyBool true);
                       ("example", PyNone) ])))
    = "Field(default=1, ge=-12, alias=x, required=True, example=None)".
Proof.
  split; [reflexivity|]. split; [|split; [|split]].
  - pose proof (C7_call_expression
                  (init (func_call "Field" (Some [("default", PyStr "1")])))
                  eq_refl) as (_ & Hstr & _).
    apply (Hstr [("default", "1")]). reflexivity.
  - pose proof (C7_call_expression (init (func_call "Field" (Some [])))
                  eq_refl) as (_ & _ & Hnone & _).
    apply Hnone. by right.
  - pose proof (C7_call_expression (init (func_call "Field" None))
                  eq_refl) as (_ & _ & Hnone & _).
    apply Hnone. by left.
  - pose proof (C7_call_expression
                  (init (func_call "Field"
                           (Some [ ("default", PyStr "1");
                                   ("ge", PyInt (-12));
                                   ("alias", PyStr "x");
                                   ("required", PyBool true);
                                   ("example", PyNone) ])))
                  eq_refl) as (Hgen & _).
    apply (Hgen _ eq_refl).
Defined.

(** C10: a node with a (non-empty) name renders from the name
    alone. Whatever children it is given, its inner form is the
    name (quoted as the dialect asks), so its rendering does not
    depend on the children and carries no union of them; all the
    same, [__init__] has merged every child's [unresolved_types]
    and [imports_] into the node's. *)
Theorem C10_named_node_ignores_children_when_rendering
    (v : DataType) (cs : list DataType) :
  str_truthy (type v) = true →
  inner_form (init (with_data_types v cs)) = named_form v
  ∧ type_hint (init (with_data_types v cs))
    = call_form v (wrappers v (named_form v))
  ∧ (∀ cs', type_hint (init (with_data_types v cs'))
            = type_hint (init (with_data_types v cs)))
  ∧ (∀ c, c ∈ cs →
       unresolved_types c
       ⊆ unresolved_types (init (with_data_types v cs))
       ∧ ∀ x, x ∈ imports_ c →
              x ∈ imports_ (init (with_data_types v cs))).
Proof.
  intros Ht.
  assert (∀ cs0, type_hint (init (with_data_types v cs0))
                 = call_form v (wrappers v (named_form v))) as Hr.
  { intros cs0. rewrite type_hint_init, type_hint_unfold.
    unfold inner_form. cbn [with_data_types type]. by rewrite Ht. }
  split; [|split; [|split]].
  - unfold inner_form. cbn [init with_data_types type]. by rewrite Ht.
  - apply Hr.
  - intros cs'. by rewrite !Hr.
  - intros c Hc. split.
    + by apply child_unresolved_in_init.
    + intros x Hx. by apply (child_imports_in_init _ c).
Qed.

Lemma C10_named_node_ignores_children_when_rendering_witness :
  let v := flagged_name "Pet" false false false in
  let cs := [ from_model_name DataType_defaults "A" true;
              from_model_name DataType_defaults "B" false ] in
  str_truthy (type v) = true
  ∧ type_hint (init (with_data_types v cs)) = "Pet"
  ∧ "A" ∈ unresolved_types (init (with_data_types v cs))
  ∧ IMPORT_LIST ∈ imports_ (init (with_data_types v cs)).
Proof.
  cbn zeta. split; [reflexivity|].
  pose proof (C10_named_node_ignores_children_when_rendering
                (flagged_name "Pet" false false false)
                [ from_model_name DataType_defaults "A" true;
                  from_model_name DataType_defaults "B" false ]
                eq_refl) as (_ & Hr & _ & Hc).
  split; [exact Hr|].
  destruct (Hc (from_model_name DataType_defaults "A" true))
    as [Hu Hi]; [constructor|].
  split.
  - apply Hu. unfold from_model_name. rewrite unresolved_types_init.
    cbn. apply elem_of_union. left. apply elem_of_union. right.
    by apply elem_of_singleton.
  - apply Hi. unfold from_model_name. rewrite imports_init. cbn.
    constructor.
Defined.

End render_claims.

(** ** Properties of the aggregated sets *)

Section aggregate_claims.

(** C8: the aggregates of a node built over children contain those
    of every child: each child's [unresolved_types] is a subset of
    the node's, and each entry of a child's [imports_] is an entry
    of the node's. *)
Theorem C8_aggregates_contain_children (v c : DataType) :
  c ∈ data_types v →
  unresolved_types c ⊆ unresolved_types (init v)
  ∧ ∀ x, x ∈ imports_ c → x ∈ imports_ (init v).
Proof.
  intros Hc. split.
  - by apply child_unresolved_in_init.
  - intros x Hx. by apply (child_imports_in_init v c).
Qed.

Lemma C8_aggregates_contain_children_witness :
  let c := from_model_name DataType_defaults "Pet" true in
  let v := composite [init (only_name "int"); c] false false true in
  c ∈ data_types v
  ∧ unresolved_types c ⊆ unresolved_types (init v)
  ∧ ∀ x, x ∈ imports_ c → x ∈ imports_ (init v).
Proof.
  cbn zeta.
  assert (from_model_name DataType_defaults "Pet" true
          ∈ data_types
              (composite
                 [ init (only_name "int");
                   from_model_name DataType_defaults "Pet" true ]
                 false false true)) as Hc
    by (right; left).
  split; [exact Hc|].
  exact (C8_aggregates_contain_children _ _ Hc).
Defined.

End aggregate_claims.

(** ** Construction and the objects already in the store *)

Section frame_claims.

(** C9: building a node over existing objects leaves them as they
    were. When the children are objects of the store, [__init__]
    returns a new object at an address that was free, and every
    cell that was in the store holds afterwards what it held
    before: the fold writes only to the new object's own list and
    set. So each child's [imports_] and [unresolved_types] read the
    same, and every object that could be read as a tree before
    (name, reference, aggregates, children, and with them its
    rendering) reads as the same tree afterwards. *)
Theorem C9_init_leaves_existing_objects_unchanged
    (h : heap) (v : Values)
    (views : list (list Import * gset string)) :
  mapM (child_cells h) (v_data_types v) = Some views →
  ∃ (self : loc) (h' : heap),
    init_obj v h = Some (self, h')
    ∧ h !! self = None
    ∧ (∀ l x, h !! l = Some x → h' !! l = Some x)
    ∧ mapM (child_cells h') (v_data_types v) = Some views
    ∧ (∀ fuel l, is_Some (read_tree fuel h l) →
         read_tree fuel h' l = read_tree fuel h l
         ∧ type_hint <$> read_tree fuel h' l
           = type_hint <$> read_tree fuel h l).
Proof.
  intros Hviews. eexists _, _. split; [by apply init_obj_spec|].
  split; [apply lookup_ge_None_2; lia|].
  assert (∀ xs s l x, h !! l = Some x →
            with_self h v xs s !! l = Some x) as Hold
    by (intros; by apply with_self_lookup_old).
  split; [apply Hold|]. split.
  - apply mapM_Some. apply mapM_Some in Hviews.
    eapply Forall2_impl; [exact Hviews|].
    intros c [xs s] (o & Ho & Hi & Hu)%child_cells_Some.
    unfold child_cells.
    by rewrite (Hold _ _ _ _ Ho), (Hold _ _ _ _ Hi), (Hold _ _ _ _ Hu).
  - intros fuel l [t Ht].
    assert (read_tree fuel (with_self h v
              (foldl add_flag_import (v_imports_ v)
                 [ (v_is_list v, IMPORT_LIST);
                   (v_is_dict v, IMPORT_DICT);
                   (v_is_optional v, IMPORT_OPTIONAL);
                   (bool_decide (1 < length (v_data_types v)),
                    IMPORT_UNION) ]
               ++ mjoin views.*1)
              ((if str_truthy (v_type v)
                   && (obj_truthy (v_reference v) || v_ref v)
                then v_unresolved_types v ∪ {[ type_str (v_type v) ]}
                else v_unresolved_types v)
               ∪ ⋃ views.*2)) l = read_tree fuel h l) as ->.
    { rewrite Ht. by apply read_tree_ext. }
    done.
Qed.

Lemma C9_init_leaves_existing_objects_unchanged_witness :
  mapM (child_cells pet_store) (v_data_types optional_pet_values)
  = Some [([IMPORT_LIST], {[ "Pet" ]})]
  ∧ ∃ (self : loc) (h' : heap),
      init_obj optional_pet_values pet_store = Some (self, h')
      ∧ pet_store !! self = None
      ∧ (∀ l x, pet_store !! l = Some x → h' !! l = Some x)
      ∧ mapM (child_cells h') (v_data_types optional_pet_values)
        = Some [([IMPORT_LIST], {[ "Pet" ]})]
      ∧ (∀ fuel l, is_Some (read_tree fuel pet_store l) →
           read_tree fuel h' l = read_tree fuel pet_store l
           ∧ type_hint <$> read_tree fuel h' l
             = type_hint <$> read_tree fuel pet_store l).
Proof.
  split; [reflexivity|].
  apply (C9_init_leaves_existing_objects_unchanged
           pet_store optional_pet_values
           [([IMPORT_LIST], {[ "Pet" ]})]).
  reflexivity.
Defined.

End frame_claims.

(** ** The traversal [all_data_types] *)

Section traversal.

Implicit Types (d c n : DataType).

(** Induction over a node and, through the list of its children, over
    all its descendants. *)
Lemma DataType_tree_ind (P : DataType → Prop) :
  (∀ d, Forall P (data_types d) → P d) → ∀ d, P d.
Proof.
  intros IH. fix F 1. intros d. apply IH.
  destruct d as [t r cs f k i pv u rf o m l]. cbn [data_types].
  induction cs as [|c cs IHcs]; constructor; [apply F | exact IHcs].
Qed.

Lemma all_data_types_unfold d :
  all_data_types d
  = (flat_map all_data_types (data_types d) ++ [d])%list.
Proof. destruct d; reflexivity. Qed.

Lemma elem_of_all_data_types n d :
  n ∈ all_data_types d
  ↔ n = d ∨ ∃ c, c ∈ data_types d ∧ n ∈ all_data_types c.
Proof.
  rewrite all_data_types_unfold, elem_of_app, list_elem_of_singleton.
  rewrite list_elem_of_In, in_flat_map. split.
  - intros [(c & Hc & Hn)| ->]; [right|by left].
    exists c. by rewrite !list_elem_of_In.
  - intros [->|(c & Hc & Hn)]; [by right|left].
    exists c. by rewrite <- !list_elem_of_In.
Qed.

Lemma all_data_types_child_block (cs : list DataType) c :
  c ∈ cs →
  ∃ before after,
    flat_map all_data_types cs
    = (before ++ all_data_types c ++ after)%list.
Proof.
  intros (l1 & l2 & ->)%list_elem_of_split.
  exists (flat_map all_data_types l1), (flat_map all_data_types l2).
  by rewrite flat_map_app.
Qed.

(** X1: [all_data_types] is a post-order walk. The node itself comes
    last; a node without children yields only itself; and the walk of
    each child appears whole, as one block, before the node. *)
Theorem X1_all_data_types_is_post_order d :
  last (all_data_types d) = Some d
  ∧ (data_types d = [] → all_data_types d = [d])
  ∧ (∀ c, c ∈ data_types d →
       ∃ before after,
         all_data_types d
         = (before ++ all_data_types c ++ after ++ [d])%list).
Proof.
  rewrite all_data_types_unfold. split; [apply last_snoc|]. split.
  - by intros ->.
  - intros c (before & after & ->)%all_data_types_child_block.
    exists before, after. by rewrite <- !app_assoc.
Qed.

Lemma X1_all_data_types_is_post_order_witness :
  let a := init (only_name "int") in
  let b := init (flagged_name "str" true false false) in
  let d := init (composite [a; b] false false false) in
  b ∈ data_types d
  ∧ all_data_types d = [a; b; d]
  ∧ ∃ before after,
      all_data_types d = (before ++ all_data_types b ++ after ++ [d])%list.
Proof.
  cbn zeta. split; [right; left|]. split; [reflexivity|].
  apply (X1_all_data_types_is_post_order
           (init (composite [ init (only_name "int");
                              init (flagged_name "str" true false false) ]
                    false false false))).
  right; left.
Defined.

(** X2: the walk yields exactly the descendants: a node is met by
    [all_data_types] of [d] if and only if it is [d] itself or is
    reached from [d] through [data_types], child by child, at any
    depth. *)
Theorem X2_all_data_types_reaches_all_descendants d n :
  n ∈ all_data_types d ↔ descendant n d.
Proof.
  split.
  - revert n. induction d as [d IH] using DataType_tree_ind.
    intros n [->|(c & Hc & Hn)]%elem_of_all_data_types.
    + apply descendant_self.
    + rewrite Forall_forall in IH.
      apply (descendant_child n c d Hc). by apply IH.
  - intros Hd. induction Hd as [d|n c d Hc _ IH].
    + apply elem_of_all_data_types. by left.
    + apply elem_of_all_data_types. right. by exists c.
Qed.

Lemma X2_all_data_types_reaches_all_descendants_witness :
  let a := init (only_name "int") in
  let u := init (composite [a; init (only_name "str")] false false false) in
  let d := init (composite [u] true false false) in
  descendant a d ∧ a ∈ all_data_types d.
Proof.
  cbn zeta.
  assert (descendant (init (only_name "int"))
            (init (composite
                     [init (composite [ init (only_name "int");
                                        init (only_name "str") ]
                              false false false)] true false false)))
    as Hd.
  { eapply descendant_child; [left|].
    eapply descendant_child; [left|]. apply descendant_self. }
  split; [exact Hd|].
  by apply (X2_all_data_types_reaches_all_descendants _ _).
Defined.

End traversal.

(** ** What the fold puts into the aggregates *)

Section fold_contents.

Implicit Types (v d c n : DataType) (x : Import) (acc : list Import).

Lemma elem_of_foldl_add_flag_import (fis : list (bool * Import)) acc x :
  x ∈ foldl add_flag_import acc fis
  ↔ x ∈ acc ∨ ∃ fi, fi ∈ fis ∧ fi.1 = true ∧ fi.2 = x.
Proof.
  revert acc. induction fis as [|[b y] fis IH]; intros acc; cbn [foldl].
  - split; [by left|]. intros [?|(fi & Hfi & _)]; [done|].
    by apply elem_of_nil in Hfi.
  - rewrite IH. unfold add_flag_import. cbn [fst snd]. split.
    + intros [Hx|(fi & Hfi & Ht & He)].
      * destruct b; cbn in Hx; [|by left].
        case_bool_decide; cbn in Hx; [by left|].
        apply elem_of_app in Hx as [Hx|Hx]; [by left|].
        apply list_elem_of_singleton in Hx as ->.
        right. exists (true, y). split; [left|done].
      * right. exists fi. split; [by right|done].
    + intros [Hx|(fi & Hfi & Ht & He)].
      * left. destruct b; cbn; [|done].
        case_bool_decide; cbn; [done|]. apply elem_of_app. by left.
      * apply elem_of_cons in Hfi as [->|Hfi].
        -- cbn in Ht, He. subst. left. cbn.
           case_bool_decide; cbn; [done|].
           apply elem_of_app. right. by apply list_elem_of_singleton.
        -- right. by exists fi.
Qed.

Lemma NoDup_foldl_add_flag_import (fis : list (bool * Import)) acc :
  NoDup (foldl add_flag_import acc fis) ↔ NoDup acc.
Proof.
  revert acc. induction fis as [|[b y] fis IH]; intros acc; cbn [foldl];
    [done|].
  rewrite IH. unfold add_flag_import. cbn [fst snd].
  destruct b; cbn; [|done]. case_bool_decide as Hy; cbn; [done|].
  rewrite NoDup_app. split.
  - by intros (Hnd & _ & _).
  - intros Hnd. split; [done|]. split; [|apply NoDup_singleton].
    intros z Hz ->%list_elem_of_singleton. done.
Qed.

(** X3: the node's [unresolved_types] after [__init__] holds exactly
    the names it was given, its own name when that is non-empty and
    the node has a reference or the [ref] flag, and the names of its
    children's sets; nothing else. *)
Theorem X3_unresolved_types_contents v (s : string) :
  s ∈ unresolved_types (init v)
  ↔ s ∈ unresolved_types v
    ∨ (type v = Some s ∧ s ≠ ""
       ∧ (is_Some (reference v) ∨ ref v = true))
    ∨ ∃ c, c ∈ data_types v ∧ s ∈ unresolved_types c.
Proof.
  rewrite unresolved_types_init, elem_of_union, elem_of_union_list.
  assert ((∃ X : gset string, X ∈ unresolved_types <$> data_types v ∧ s ∈ X)
          ↔ ∃ c, c ∈ data_types v ∧ s ∈ unresolved_types c) as ->.
  { split.
    - intros (X & (c & -> & Hc)%list_elem_of_fmap & Hs). by exists c.
    - intros (c & Hc & Hs). exists (unresolved_types c).
      split; [by apply list_elem_of_fmap_2|done]. }
  assert (s ∈ (if str_truthy (type v)
                    && (obj_truthy (reference v) || ref v)
               then unresolved_types v ∪ {[ type_str (type v) ]}
               else unresolved_types v)
          ↔ s ∈ unresolved_types v
            ∨ (type v = Some s ∧ s ≠ ""
               ∧ (is_Some (reference v) ∨ ref v = true))) as ->; [|tauto].
  destruct (str_truthy (type v)) eqn:Ht; cbn [andb].
  - apply str_truthy_Some in Ht as (n & Hn & Hne). rewrite Hn.
    cbn [type_str default].
    destruct (reference v) as [r|]; cbn [obj_truthy orb].
    + rewrite elem_of_union, elem_of_singleton. split.
      * intros [?| ->]; [by left|]. right. eauto.
      * intros [?|([= ->] & _)]; [by left|by right].
    + destruct (ref v).
      * rewrite elem_of_union, elem_of_singleton. split.
        -- intros [?| ->]; [by left|]. right. eauto.
        -- intros [?|([= ->] & _)]; [by left|by right].
      * split; [by left|]. intros [?|(_ & _ & [[r Hr]|Hr])]; done.
  - split; [by left|]. intros [?|(Hs & Hne & _)]; [done|].
    rewrite Hs in Ht. cbn in Ht. apply negb_false_iff in Ht.
    by apply String.eqb_eq in Ht.
Qed.

Lemma X3_unresolved_types_contents_witness :
  let c := from_model_name DataType_defaults "Pet" false in
  let v := composite [c] true false false in
  "Pet" ∈ unresolved_types (init v)
  ∧ "int" ∉ unresolved_types (init (only_name "int")).
Proof.
  cbn zeta. split.
  - apply (X3_unresolved_types_contents
             (composite [from_model_name DataType_defaults "Pet" false]
                true false false) "Pet").
    right. right. eexists. split; [left|].
    apply (X3_unresolved_types_contents _ "Pet").
    right. left. split; [reflexivity|]. split; [discriminate|by right].
  - intros H.
    apply (X3_unresolved_types_contents (only_name "int") "int") in H.
    destruct H as [H|[(_ & _ & [[r Hr]|Hr])|(c & Hc & _)]].
    + by apply not_elem_of_empty in H.
    + discriminate Hr.
    + discriminate Hr.
    + by apply elem_of_nil in Hc.
Defined.

(** X4: the node's [imports_] after [__init__] holds exactly the
    entries it was given, the helper of each wrapper flag that is set,
    the union helper when there are two or more children (whether or
    not the node has a name), and the entries of its children's lists;
    nothing else. *)
Theorem X4_imports_contents v x :
  x ∈ imports_ (init v)
  ↔ x ∈ imports_ v
    ∨ (is_list v = true ∧ x = IMPORT_LIST)
    ∨ (is_dict v = true ∧ x = IMPORT_DICT)
    ∨ (is_optional v = true ∧ x = IMPORT_OPTIONAL)
    ∨ (1 < length (data_types v) ∧ x = IMPORT_UNION)
    ∨ ∃ c, c ∈ data_types v ∧ x ∈ imports_ c.
Proof.
  rewrite imports_init, elem_of_app, elem_of_foldl_add_flag_import.
  rewrite list_elem_of_join.
  assert ((∃ l : list Import, x ∈ l ∧ l ∈ imports_ <$> data_types v)
          ↔ ∃ c, c ∈ data_types v ∧ x ∈ imports_ c) as ->.
  { split.
    - intros (l & Hx & (c & -> & Hc)%list_elem_of_fmap). by exists c.
    - intros (c & Hc & Hx). exists (imports_ c).
      split; [done|by apply list_elem_of_fmap_2]. }
  assert ((∃ fi : bool * Import,
             fi ∈ flag_imports v ∧ fi.1 = true ∧ fi.2 = x)
          ↔ (is_list v = true ∧ x = IMPORT_LIST)
            ∨ (is_dict v = true ∧ x = IMPORT_DICT)
            ∨ (is_optional v = true ∧ x = IMPORT_OPTIONAL)
            ∨ (1 < length (data_types v) ∧ x = IMPORT_UNION)) as ->;
    [|tauto].
  unfold flag_imports. split.
  - intros ([b y] & Hfi & Hb & Hy). cbn in Hb, Hy. subst.
    apply elem_of_cons in Hfi as [[= Hl ->]|Hfi]; [left; by split|].
    apply elem_of_cons in Hfi as [[= Hl ->]|Hfi]; [right; left; by split|].
    apply elem_of_cons in Hfi as [[= Hl ->]|Hfi];
      [right; right; left; by split|].
    apply elem_of_cons in Hfi as [[= Hl ->]|Hfi];
      [|by apply elem_of_nil in Hfi].
    right. right. right. split; [|done].
    symmetry in Hl. by apply bool_decide_eq_true in Hl.
  - intros [[Hf ->]|[[Hf ->]|[[Hf ->]|[Hf ->]]]].
    + exists (is_list v, IMPORT_LIST). split; [left|done].
    + exists (is_dict v, IMPORT_DICT). split; [right; left|done].
    + exists (is_optional v, IMPORT_OPTIONAL).
      split; [right; right; left|done].
    + exists (bool_decide (1 < length (data_types v)), IMPORT_UNION).
      split; [right; right; right; left|].
      split; [by apply bool_decide_eq_true|done].
Qed.

Lemma X4_imports_contents_witness :
  let v := with_data_types (flagged_name "Pet" false false true)
             [init (only_name "A"); init (only_name "B")] in
  IMPORT_OPTIONAL ∈ imports_ (init v)
  ∧ IMPORT_UNION ∈ imports_ (init v)
  ∧ type_hint (init v) = "Optional[Pet]".
Proof.
  cbn zeta. split; [|split; [|reflexivity]].
  - apply (X4_imports_contents
             (with_data_types (flagged_name "Pet" false false true)
                [init (only_name "A"); init (only_name "B")])
             IMPORT_OPTIONAL).
    right. right. right. left. by split.
  - apply (X4_imports_contents
             (with_data_types (flagged_name "Pet" false false true)
                [init (only_name "A"); init (only_name "B")])
             IMPORT_UNION).
    right. right. right. right. left. split; [cbn; lia|done].
Defined.

(** X5: when [imports_] is duplicate-free. The own-helper loop never
    adds a duplicate, so the list after [__init__] has no duplicates
    exactly when the list given had none, the children's lists put
    end to end have none, and no entry of a child is already among
    the node's own entries. *)
Theorem X5_imports_duplicate_free_iff v :
  NoDup (imports_ (init v))
  ↔ NoDup (imports_ v)
    ∧ NoDup (mjoin (imports_ <$> data_types v))
    ∧ ∀ x c, c ∈ data_types v → x ∈ imports_ c →
        x ∉ foldl add_flag_import (imports_ v) (flag_imports v).
Proof.
  rewrite imports_init, NoDup_app, NoDup_foldl_add_flag_import.
  split.
  - intros (Hv & Hdis & Hcs). split; [done|]. split; [done|].
    intros x c Hc Hx Hown. apply (Hdis x Hown).
    apply list_elem_of_join. exists (imports_ c).
    split; [done|by apply list_elem_of_fmap_2].
  - intros (Hv & Hcs & Hdis). split; [done|]. split; [|done].
    intros x Hown (l & Hx & (c & -> & Hc)%list_elem_of_fmap)%list_elem_of_join.
    by apply (Hdis x c).
Qed.

Lemma X5_imports_duplicate_free_iff_witness :
  let v := composite [init (flagged_name "int" false true false)]
             true false false in
  imports_ (init v) = [IMPORT_LIST; IMPORT_DICT]
  ∧ NoDup (imports_ (init v)).
Proof.
  cbn zeta. split; [reflexivity|].
  apply (X5_imports_duplicate_free_iff
           (composite [init (flagged_name "int" false true false)]
              true false false)).
  split; [constructor|]. split.
  - cbn. apply NoDup_singleton.
  - intros x c Hc Hx Hown.
    apply elem_of_cons in Hc as [->|Hc]; [|by apply elem_of_nil in Hc].
    cbn in Hx, Hown.
    apply list_elem_of_singleton in Hx as ->.
    by apply list_elem_of_singleton in Hown.
Defined.

(** X6: a node that came out of the constructor, with all its
    descendants, holds the aggregates of its whole subtree: the
    [unresolved_types] of every node met by [all_data_types] is a
    subset of the root's, and every entry of such a node's [imports_]
    is an entry of the root's. *)
Theorem X6_root_aggregates_whole_subtree d n :
  constructed d → n ∈ all_data_types d →
  unresolved_types n ⊆ unresolved_types d
  ∧ ∀ x, x ∈ imports_ n → x ∈ imports_ d.
Proof.
  revert n. induction d as [d IH] using DataType_tree_ind.
  intros n Hd Hn. destruct Hd as [v Hv].
  apply elem_of_all_data_types in Hn as [->|(c & Hc & Hn)]; [done|].
  cbn [init data_types] in Hc, IH.
  rewrite Forall_forall in IH, Hv.
  destruct (IH c Hc n (Hv c Hc) Hn) as [Hu Hi]. split.
  - etrans; [exact Hu|]. by apply child_unresolved_in_init.
  - intros x Hx. apply (child_imports_in_init v c); [done|]. by apply Hi.
Qed.

Lemma X6_root_aggregates_whole_subtree_witness :
  constructed union_of_unions
  ∧ init (only_name "int") ∈ all_data_types union_of_unions
  ∧ unresolved_types (init (only_name "int"))
    ⊆ unresolved_types union_of_unions.
Proof.
  assert (constructed union_of_unions) as Hc.
  { unfold union_of_unions. cbv zeta.
    apply constructed_init. cbn [composite data_types].
    repeat (constructor; try apply constructed_init). }
  assert (init (only_name "int") ∈ all_data_types union_of_unions) as Hn.
  { apply elem_of_all_data_types. right. eexists. split; [left|].
    apply elem_of_all_data_types. right. eexists. split; [left|].
    apply elem_of_all_data_types. by left. }
  split; [exact Hc|]. split; [exact Hn|].
  exact (proj1 (X6_root_aggregates_whole_subtree _ _ Hc Hn)).
Defined.

End fold_contents.

(** ** More on rendering *)

Section rendering_more.

Implicit Types (d c : DataType) (t : string).

Lemma append_nonempty_r (s : string) (a : ascii) (t : string) :
  s ++ String a t ≠ "".
Proof. by destruct s. Qed.

Lemma wrappers_empty d t :
  wrappers d t = ""
  ↔ is_list d = false ∧ is_dict d = false ∧ is_optional d = false ∧ t = "".
Proof.
  unfold wrappers, optional_wrap, dict_wrap, list_wrap.
  destruct (is_optional d).
  { split; [discriminate|]. by intros (_ & _ & ? & _). }
  destruct (is_dict d).
  { split; [|by intros (_ & ? & _)].
    by destruct (negb (String.eqb _ "")). }
  destruct (is_list d).
  { split; [|by intros (? & _)]. by destruct (negb (String.eqb _ "")). }
  split; [by intros ->|by intros (_ & _ & _ & ?)].
Qed.

Lemma call_form_empty d t :
  call_form d t = "" ↔ is_func d = false ∧ t = "".
Proof.
  unfold call_form. destruct (is_func d);
    [|split; [by intros ->|by intros [_ ?]]].
  split; [|by intros [? _]].
  destruct (dict_truthy (kwargs d)); intros H;
    by apply append_nonempty_r in H.
Qed.

Lemma union_form_empty (types : list string) :
  union_form types = "" ↔ types = [] ∨ types = [""].
Proof.
  unfold union_form. case_bool_decide as Hlen.
  - split; [discriminate|]. intros [->| ->]; cbn in Hlen; lia.
  - destruct types as [|t [|t' types]]; cbn in Hlen; [| |lia].
    + split; [by left|done].
    + split; [intros ->; by right|]. by intros [?|[= ->]].
Qed.

(** X7: when a node renders as the empty string: only when it is
    not a call, has no wrapper flag and no (non-empty) name, and has
    either no child or a single child that itself renders empty.
    Every other node renders a non-empty string. *)
Theorem X7_type_hint_empty_iff d :
  type_hint d = ""
  ↔ plain d ∧ str_truthy (type d) = false
    ∧ (data_types d = []
       ∨ ∃ c, data_types d = [c] ∧ type_hint c = "").
Proof.
  rewrite type_hint_unfold, call_form_empty, wrappers_empty.
  unfold plain, inner_form.
  destruct (str_truthy (type d)) eqn:Ht.
  - pose proof (named_form_nonempty d Ht) as Hne.
    apply String.eqb_neq in Hne. split.
    + by intros (_ & _ & _ & _ & ?).
    + by intros (_ & ? & _).
  - rewrite union_form_empty.
    assert (map type_hint (data_types d) = [] ∨
            map type_hint (data_types d) = [""]
            ↔ data_types d = []
              ∨ ∃ c, data_types d = [c] ∧ type_hint c = "") as ->;
      [|intuition congruence].
    destruct (data_types d) as [|c [|c' cs]]; cbn.
    + split; intros _; by left.
    + split.
      * intros [?|[= H]]; [done|]. right. by exists c.
      * intros [?|(c0 & [= <-] & H)]; [done|]. right. by rewrite H.
    + split; [by intros [?|?]|]. by intros [?|(c0 & ? & _)].
Qed.

Lemma X7_type_hint_empty_iff_witness :
  type_hint (init (composite [init (composite [] false false false)]
                     false false false)) = ""
  ∧ type_hint (init (composite [] true false false)) ≠ "".
Proof.
  split.
  - apply (X7_type_hint_empty_iff
             (init (composite [init (composite [] false false false)]
                      false false false))).
    split; [by repeat split|]. split; [reflexivity|].
    right. eexists. split; reflexivity.
  - intros H.
    apply (X7_type_hint_empty_iff
             (init (composite [] true false false))) in H.
    destruct H as [(Hl & _) _]. discriminate Hl.
Defined.

(** X8: the rendering depends on the children only through their
    renderings: giving a node other children that render the same,
    in the same order, leaves its rendering as it was. *)
Theorem X8_type_hint_depends_on_children_renderings
    d (cs : list DataType) :
  map type_hint cs = map type_hint (data_types d) →
  type_hint (with_data_types d cs) = type_hint d.
Proof.
  intros Hcs. rewrite !type_hint_unfold.
  unfold inner_form. cbn [with_data_types type data_types]. rewrite Hcs.
  reflexivity.
Qed.

Lemma X8_type_hint_depends_on_children_renderings_witness :
  let d := init (composite [init (only_name "int")] true false false) in
  let cs := [init (composite [init (symbolic_name "int" PY_37)]
                     false false false)] in
  map type_hint cs = map type_hint (data_types d)
  ∧ type_hint (with_data_types d cs) = type_hint d.
Proof.
  cbn zeta. split; [reflexivity|].
  apply (X8_type_hint_depends_on_children_renderings
           (init (composite [init (only_name "int")] true false false))).
  reflexivity.
Defined.

(** X9: wrapping one existing node. A node without a name over the
    single child [c] renders the wrappers of its own flags around
    [c]'s rendering, holds [c]'s [unresolved_types], and holds the
    helpers of its own flags followed by [c]'s [imports_]. In
    particular a list node over an optional child renders
    [List[Optional[..]]], the nesting that the flags of one node
    cannot give. *)
Theorem X9_wrapper_over_one_child c (l m o : bool) (n : string) :
  type_hint (init (composite [c] l m o))
  = optional_wrap o (dict_wrap m (list_wrap l (type_hint c)))
  ∧ unresolved_types (init (composite [c] l m o)) = unresolved_types c
  ∧ imports_ (init (composite [c] l m o))
    = ((if l then [IMPORT_LIST] else [])
       ++ (if m then [IMPORT_DICT] else [])
       ++ (if o then [IMPORT_OPTIONAL] else [])
       ++ imports_ c)%list
  ∧ type_hint (init (composite [init (flagged_name n false false true)]
                       true false false))
    = "List[" ++ ("Optional[" ++ n ++ "]") ++ "]".
Proof.
  split; [|split; [|split]].
  - rewrite type_hint_init, type_hint_unfold. reflexivity.
  - rewrite unresolved_types_init. cbn.
    by rewrite (right_id_L ∅ (∪)), (left_id_L ∅ (∪)).
  - rewrite imports_init. destruct l, m, o; cbn; by rewrite app_nil_r.
  - assert (type_hint (init (flagged_name n false false true))
            = "Optional[" ++ n ++ "]") as Hc.
    { destruct (String.eqb_spec n "") as [->|Hne]; [reflexivity|].
      rewrite type_hint_init, type_hint_unfold.
      unfold call_form, wrappers, inner_form, named_form. cbn.
      apply String.eqb_neq in Hne. by rewrite Hne. }
    rewrite type_hint_init, type_hint_unfold.
    unfold call_form, wrappers, inner_form, union_form.
    cbn [composite type str_truthy data_types is_func is_optional is_dict
         is_list map length optional_wrap dict_wrap list_wrap].
    rewrite Hc. reflexivity.
Qed.

End rendering_more.

(** ** The factory constructors and [DataTypeManager] *)

Section factories.

Implicit Types (pv : PythonVersion) (n : string) (l : bool) (r : Reference).

(** Decide the dialect tests once the manager's version is known. *)
Ltac decide_version :=
  cbn [DataTypeManager_init data_type];
  repeat match goal with
    | |- context [@bool_decide (?a = PY_36) ?i] =>
        let b := eval vm_compute in (@bool_decide (a = PY_36) i) in
        change (@bool_decide (a = PY_36) i) with b
    end.

Lemma str_truthy_nonempty n : n ≠ "" → str_truthy (Some n) = true.
Proof. intros Hne. apply str_truthy_Some. by exists n. Qed.

(** X10: [from_model_name] on the class that a manager selects. For a
    non-empty name the node renders the name, between single quotes
    only when the manager was made for [PY_36], inside [List[...]]
    when [is_list] is passed; it records exactly its name as
    unresolved, needs the list helper only when [is_list] is passed,
    and has no module. The node's own dialect is [PY_36] for a
    [PY_36] manager and the class default [PY_37] for every other
    manager. *)
Theorem X10_from_model_name_of_manager pv n l :
  n ≠ "" →
  let d := from_model_name (data_type (DataTypeManager_init pv)) n l in
  type_hint d
  = (let q := if bool_decide (pv = PY_36) then "'" ++ n ++ "'" else n in
     if l then "List[" ++ q ++ "]" else q)
  ∧ unresolved_types d = {[ n ]}
  ∧ imports_ d = (if l then [IMPORT_LIST] else [])
  ∧ module_name d = None
  ∧ python_version d = (if bool_decide (pv = PY_36) then PY_36 else PY_37).
Proof.
  intros Hne d. subst d. unfold from_model_name.
  pose proof (str_truthy_nonempty n Hne) as Ht.
  pose proof Hne as Hb. apply String.eqb_neq in Hb.
  split; [|split; [|split; [|split]]].
  - rewrite type_hint_init, type_hint_unfold.
    unfold call_form, wrappers, inner_form, named_form.
    cbn [type reference ref python_version is_func is_optional is_dict
         is_list type_str default obj_truthy orb andb].
    rewrite Ht.
    destruct pv, l; decide_version; cbn; rewrite ?Hb; reflexivity.
  - rewrite unresolved_types_init.
    cbn [type reference ref unresolved_types data_types type_str default].
    rewrite Ht, orb_true_r. destruct pv; decide_version; cbn;
      by rewrite (left_id_L ∅ (∪)), (right_id_L ∅ (∪)).
  - rewrite imports_init. destruct pv, l; reflexivity.
  - by destruct pv.
  - by destruct pv.
Qed.

Lemma X10_from_model_name_of_manager_witness :
  "Pet" ≠ ""
  ∧ type_hint (from_model_name (data_type (DataTypeManager_init PY_36))
                 "Pet" true) = "List['Pet']"
  ∧ type_hint (from_model_name (data_type (DataTypeManager_init PY_38))
                 "Pet" false) = "Pet"
  ∧ python_version
      (from_model_name (data_type (DataTypeManager_init PY_38)) "Pet" false)
    = PY_37.
Proof.
  split; [discriminate|].
  pose proof (X10_from_model_name_of_manager PY_36 "Pet" true
                ltac:(discriminate)) as (H36 & _).
  pose proof (X10_from_model_name_of_manager PY_38 "Pet" false
                ltac:(discriminate)) as (H38 & _ & _ & _ & Hpv).
  split; [exact H36|]. split; [exact H38|exact Hpv].
Defined.

(** X11: [from_reference] on the class that a manager selects. For a
    reference with a non-empty name the node carries the reference,
    renders its name (quoted only for a [PY_36] manager, inside
    [List[...]] when [is_list] is passed), records exactly that name
    as unresolved, and [module_name] is the reference's module. *)
Theorem X11_from_reference_of_manager pv r l :
  name r ≠ "" →
  let d := from_reference (data_type (DataTypeManager_init pv)) r l in
  reference d = Some r
  ∧ type_hint d
    = (let q := if bool_decide (pv = PY_36) then "'" ++ name r ++ "'"
                else name r in
       if l then "List[" ++ q ++ "]" else q)
  ∧ unresolved_types d = {[ name r ]}
  ∧ imports_ d = (if l then [IMPORT_LIST] else [])
  ∧ module_name d = ref_module_name r.
Proof.
  intros Hne d. subst d. unfold from_reference.
  pose proof (str_truthy_nonempty (name r) Hne) as Ht.
  pose proof Hne as Hb. apply String.eqb_neq in Hb.
  split; [reflexivity|]. split; [|split; [|split]].
  - rewrite type_hint_init, type_hint_unfold.
    unfold call_form, wrappers, inner_form, named_form.
    cbn [type reference ref python_version is_func is_optional is_dict
         is_list type_str default obj_truthy orb andb].
    rewrite Ht.
    destruct pv, l; decide_version; cbn; rewrite ?Hb; reflexivity.
  - rewrite unresolved_types_init.
    cbn [type reference ref unresolved_types data_types type_str default
         obj_truthy orb].
    rewrite Ht. destruct pv; decide_version; cbn;
      by rewrite (left_id_L ∅ (∪)), (right_id_L ∅ (∪)).
  - rewrite imports_init. destruct pv, l; reflexivity.
  - reflexivity.
Qed.

Lemma X11_from_reference_of_manager_witness :
  let r := mkReference "Pet" (Some "models.pet") in
  name r ≠ ""
  ∧ type_hint (from_reference (data_type (DataTypeManager_init PY_36))
                 r false) = "'Pet'"
  ∧ module_name (from_reference (data_type (DataTypeManager_init PY_37))
                   r true) = Some "models.pet".
Proof.
  cbn zeta. split; [discriminate|].
  pose proof (X11_from_reference_of_manager PY_36
                (mkReference "Pet" (Some "models.pet")) false
                ltac:(discriminate)) as (_ & H36 & _).
  pose proof (X11_from_reference_of_manager PY_37
                (mkReference "Pet" (Some "models.pet")) true
                ltac:(discriminate)) as (_ & _ & _ & _ & Hm).
  split; [exact H36|exact Hm].
Defined.

(** X12: the empty name. Both factories, given the empty string as
    the name, build a node that records nothing as unresolved and
    renders as a node without a name: the empty string, or the bare
    [List] when [is_list] is passed; no quotes appear under any
    manager. *)
Theorem X12_factories_with_empty_name pv l (m : option string) :
  let cls := data_type (DataTypeManager_init pv) in
  unresolved_types (from_model_name cls "" l) = ∅
  ∧ type_hint (from_model_name cls "" l) = (if l then "List" else "")
  ∧ unresolved_types (from_reference cls (mkReference "" m) l) = ∅
  ∧ type_hint (from_reference cls (mkReference "" m) l)
    = (if l then "List" else "").
Proof.
  cbn zeta. unfold from_model_name, from_reference.
  rewrite !unresolved_types_init, !type_hint_init.
  destruct pv, l; decide_version; cbn; by rewrite !(left_id_L ∅ (∪)).
Qed.

End factories.

(** ** Construction on the store and on trees *)

Section store_more.

Implicit Types (h : heap) (v : Values) (ts : list DataType).

Lemma read_trees_ext fuel h (ext : heap) (cs : list loc) ts :
  mapM (read_tree fuel h) cs = Some ts →
  mapM (read_tree fuel (h ++ ext)) cs = Some ts.
Proof.
  rewrite !mapM_Some. intros HF.
  eapply Forall2_impl; [exact HF|]. intros c t. apply read_tree_ext.
Qed.

(** The store-level [__init__] only adds cells, and the object it
    adds reads as the tree-level [init] of the same values. *)
Lemma init_obj_extends fuel h v ts :
  mapM (read_tree fuel h) (v_data_types v) = Some ts →
  ∃ ext : heap,
    init_obj v h = Some (length h + 2, (h ++ ext)%list)
    ∧ length ext = 3
    ∧ read_tree (S fuel) (h ++ ext) (length h + 2)
      = Some (init (values_tree v ts)).
Proof.
  intros Hts.
  destruct (init_obj_refines_init fuel h v ts Hts) as (h' & Hi & Hr).
  pose proof (init_obj_spec h v _ (read_trees_child_cells fuel h _ _ Hts))
    as Hs.
  rewrite Hs in Hi. injection Hi as <-.
  unfold with_self in Hs, Hr. eexists. split; [exact Hs|]. split; [done|].
  exact Hr.
Qed.

(** X13: the store-level constructor agrees with the tree-level one.
    When the children read from the store as the trees [ts],
    [__init__] succeeds, the object it returns reads as [init] of the
    given values over [ts] (so it renders as [type_hint] of that
    tree), and the children still read as [ts]. *)
Theorem X13_store_init_builds_the_init_tree fuel h v ts :
  mapM (read_tree fuel h) (v_data_types v) = Some ts →
  ∃ (self : loc) (h' : heap),
    init_obj v h = Some (self, h')
    ∧ read_tree (S fuel) h' self = Some (init (values_tree v ts))
    ∧ type_hint <$> read_tree (S fuel) h' self
      = Some (type_hint (values_tree v ts))
    ∧ mapM (read_tree fuel h') (v_data_types v) = Some ts.
Proof.
  intros Hts.
  destruct (init_obj_extends fuel h v ts Hts) as (ext & Hi & _ & Hr).
  eexists _, _. split; [exact Hi|]. split; [exact Hr|]. split.
  - rewrite Hr. unfold fmap, option_fmap, option_map.
    by rewrite type_hint_init.
  - by apply read_trees_ext.
Qed.

Lemma X13_store_init_builds_the_init_tree_witness :
  mapM (read_tree 1 pet_store) (v_data_types optional_pet_values)
  = Some [pet_tree]
  ∧ ∃ (self : loc) (h' : heap),
      init_obj optional_pet_values pet_store = Some (self, h')
      ∧ read_tree 2 h' self
        = Some (init (values_tree optional_pet_values [pet_tree]))
      ∧ type_hint <$> read_tree 2 h' self
        = Some (type_hint (values_tree optional_pet_values [pet_tree]))
      ∧ mapM (read_tree 1 h') (v_data_types optional_pet_values)
        = Some [pet_tree].
Proof.
  split; [reflexivity|].
  apply (X13_store_init_builds_the_init_tree 1 pet_store
           optional_pet_values [pet_tree]).
  reflexivity.
Defined.

(** X15: two nodes over the same children. Building a second node
    in the store left by the first, over children that were there
    before either, gives two different objects; afterwards each reads
    as [init] of its own values over the children's trees: the second
    construction does not disturb the first node, and sharing a child
    between two parents changes neither. *)
Theorem X15_two_parents_over_shared_children fuel h (v1 v2 : Values)
    (ts1 ts2 : list DataType) :
  mapM (read_tree fuel h) (v_data_types v1) = Some ts1 →
  mapM (read_tree fuel h) (v_data_types v2) = Some ts2 →
  ∃ (p1 p2 : loc) (h1 h2 : heap),
    init_obj v1 h = Some (p1, h1)
    ∧ init_obj v2 h1 = Some (p2, h2)
    ∧ p1 ≠ p2
    ∧ read_tree (S fuel) h2 p1 = Some (init (values_tree v1 ts1))
    ∧ read_tree (S fuel) h2 p2 = Some (init (values_tree v2 ts2)).
Proof.
  intros H1 H2.
  destruct (init_obj_extends fuel h v1 ts1 H1) as (e1 & Hi1 & Hl1 & Hr1).
  pose proof (read_trees_ext fuel h e1 _ _ H2) as H2'.
  destruct (init_obj_extends fuel (h ++ e1) v2 ts2 H2')
    as (e2 & Hi2 & Hl2 & Hr2).
  eexists _, _, _, _. split; [exact Hi1|]. split; [exact Hi2|].
  split; [rewrite length_app; lia|]. split; [|exact Hr2].
  by apply read_tree_ext.
Qed.

Lemma X15_two_parents_over_shared_children_witness :
  mapM (read_tree 1 pet_store) (v_data_types optional_pet_values)
  = Some [pet_tree]
  ∧ ∃ (p1 p2 : loc) (h1 h2 : heap),
      init_obj optional_pet_values pet_store = Some (p1, h1)
      ∧ init_obj optional_pet_values h1 = Some (p2, h2)
      ∧ p1 ≠ p2
      ∧ read_tree 2 h2 p1
        = Some (init (values_tree optional_pet_values [pet_tree]))
      ∧ read_tree 2 h2 p2
        = Some (init (values_tree optional_pet_values [pet_tree])).
Proof.
  split; [reflexivity|].
  apply (X15_two_parents_over_shared_children 1 pet_store
           optional_pet_values optional_pet_values [pet_tree] [pet_tree]);
    reflexivity.
Defined.

End store_more.
